(** * food-tag-ocr: the label extraction core of [ocr-service/main.py]

    A shallow embedding of the text-to-record extractors of the OCR
    service ([extract_text_lines], [parse_food_label], the field
    extractors, [extract_nutrition] and [calculate_nrv]) together with
    the fragments of the Python runtime they rely on: Unicode strings,
    [str.strip], the [re] module on the patterns the source uses,
    binary64 arithmetic, [float()], [int()] and dictionaries. *)

From Stdlib Require Import ZArith NArith List Ascii String Lia.
From Stdlib Require Import DecimalString.
From Stdlib Require Import Floats.SpecFloat.
From stdpp Require Import gmap strings list.

Local Open Scope N_scope.

(** ** Python strings: sequences of Unicode code points *)

Module Unicode.

(** A Python [str] is a sequence of code points; [len] counts code
    points, not bytes. *)
Definition char := N.
Definition str := list N.

(** Literals are written as UTF-8 text and decoded once. *)
Fixpoint utf8_go (bs : list N) (need : nat) (acc : N) : str :=
  match bs with
  | [] => []
  | b :: bs' =>
      match need with
      | S n =>
          let acc' := acc * 64 + b mod 64 in
          match n with
          | O => acc' :: utf8_go bs' 0%nat 0
          | _ => utf8_go bs' n acc'
          end
      | O =>
          if b <? 128 then b :: utf8_go bs' 0%nat 0
          else if b <? 224 then utf8_go bs' 1%nat (b mod 32)
          else if b <? 240 then utf8_go bs' 2%nat (b mod 16)
          else utf8_go bs' 3%nat (b mod 8)
      end
  end.

Definition u (s : string) : str :=
  utf8_go (map N_of_ascii (list_ascii_of_string s)) 0%nat 0.

(** [str.isspace] for one code point; also the class [\s] of [re] on
    [str] patterns and the characters removed by [str.strip()]. *)
Definition is_space (c : char) : bool :=
  ((9 <=? c) && (c <=? 13)) || ((28 <=? c) && (c <=? 32))
  || (c =? 133) || (c =? 160) || (c =? 5760)
  || ((8192 <=? c) && (c <=? 8202))
  || (c =? 8232) || (c =? 8233) || (c =? 8239) || (c =? 8287)
  || (c =? 12288).

(** The code points of the digit zero of every decimal-digit block
    (general category Nd, Unicode 14.0); each block is ten consecutive
    code points holding the digits 0 to 9. *)
Definition decimal_zeros : list N :=
  [ 0x30; 0x660; 0x6f0; 0x7c0; 0x966; 0x9e6; 0xa66; 0xae6; 0xb66; 0xbe6;
    0xc66; 0xce6; 0xd66; 0xde6; 0xe50; 0xed0; 0xf20; 0x1040; 0x1090;
    0x17e0; 0x1810; 0x1946; 0x19d0; 0x1a80; 0x1a90; 0x1b50; 0x1bb0;
    0x1c40; 0x1c50; 0xa620; 0xa8d0; 0xa900; 0xa9d0; 0xa9f0; 0xaa50;
    0xabf0; 0xff10; 0x104a0; 0x10d30; 0x11066; 0x110f0; 0x11136;
    0x111d0; 0x112f0; 0x11450; 0x114d0; 0x11650; 0x116c0; 0x11730;
    0x118e0; 0x11950; 0x11c50; 0x11d50; 0x11da0; 0x16a60; 0x16ac0;
    0x16b50; 0x1d7ce; 0x1d7d8; 0x1d7e2; 0x1d7ec; 0x1d7f6; 0x1e140;
    0x1e2f0; 0x1e950; 0x1fbf0 ].

Fixpoint decimal_in (zs : list N) (c : char) : option N :=
  match zs with
  | [] => None
  | z :: zs' =>
      if (z <=? c) && (c <? z + 10) then Some (c - z) else decimal_in zs' c
  end.

(** The decimal value of a digit character, [None] for other
    characters ([unicodedata.decimal]). *)
Definition decimal_value (c : char) : option N := decimal_in decimal_zeros c.

(** The class [\d] of [re] on [str] patterns. *)
Definition is_decimal (c : char) : bool :=
  match decimal_value c with Some _ => true | None => false end.

Definition LF : char := 10.
Definition SP : char := 32.

End Unicode.
Export Unicode.

(** ** Exceptions *)

Inductive exn := IndexError | ValueError | OverflowError | AttributeError.

Inductive res (A : Type) :=
  | Ok (a : A)
  | Raise (e : exn).
Arguments Ok {A} a.
Arguments Raise {A} e.

#[export] Instance res_ret : MRet res := fun _ a => Ok a.
#[export] Instance res_bind : MBind res := fun _ _ f m =>
  match m with Ok a => f a | Raise e => Raise e end.
#[export] Instance res_fmap : FMap res := fun _ _ f m =>
  match m with Ok a => Ok (f a) | Raise e => Raise e end.

(** ** Operations of [str] and [list] *)

Module PyStr.

Fixpoint lstrip (s : str) : str :=
  match s with
  | c :: s' => if is_space c then lstrip s' else s
  | [] => []
  end.

Definition rstrip (s : str) : str := rev (lstrip (rev s)).

(** [s.strip()] *)
Definition strip (s : str) : str := rstrip (lstrip s).

(** [s.startswith(p)] *)
Fixpoint startswith (p s : str) : bool :=
  match p, s with
  | [], _ => true
  | a :: p', b :: s' => (a =? b) && startswith p' s'
  | _ :: _, [] => false
  end.

(** [sub in s] *)
Fixpoint contains (sub s : str) : bool :=
  startswith sub s ||
  match s with
  | [] => false
  | _ :: s' => contains sub s'
  end.

(** [any(keyword in s for keyword in kws)] *)
Definition contains_any (kws : list str) (s : str) : bool :=
  existsb (fun kw => contains kw s) kws.

(** [s.find(sub)]: the lowest index of an occurrence, [-1] without one. *)
Fixpoint find_from (sub s : str) (i : Z) : Z :=
  if startswith sub s then i
  else match s with
       | [] => (-1)%Z
       | _ :: s' => find_from sub s' (i + 1)%Z
       end.
Definition find (sub s : str) : Z := find_from sub s 0%Z.

(** [s[i:]], with Python's reading of a negative index. *)
Definition slice_from (s : str) (i : Z) : str :=
  if (i <? 0)%Z
  then drop (Z.to_nat (Z.max 0 (Z.of_nat (length s) + i))) s
  else drop (Z.to_nat i) s.

(** ['\n'.join(lines)] *)
Fixpoint join (sep : str) (l : list str) : str :=
  match l with
  | [] => []
  | [x] => x
  | x :: l' => x ++ sep ++ join sep l'
  end.

Definition str_eqb (a b : str) : bool := bool_decide (a = b).

(** [l.index(x)]: the first position holding a string equal to [x];
    [ValueError] when there is none. *)
Fixpoint index_from (x : str) (l : list str) (i : nat) : res nat :=
  match l with
  | [] => Raise ValueError
  | y :: l' => if str_eqb y x then Ok i else index_from x l' (S i)
  end.
Definition index (x : str) (l : list str) : res nat := index_from x l 0.

(** [str(n)] for an integer. *)
Definition str_of_Z (z : Z) : str :=
  map N_of_ascii (list_ascii_of_string (NilZero.string_of_int (Z.to_int z))).

End PyStr.
Export PyStr.

(** ** The [re] module on the patterns of the source

    Every repetition in the source's patterns ([*], [+], [?], [+?],
    [{n}], [{m,n}]) is applied to a single character class, except the
    optional group [(?:\.\d+)?], which is written as the alternation
    [(?:\.\d+|)] it abbreviates.  Matching is Python's backtracking
    search: the candidates of a pattern at a position are listed in
    the order in which the engine tries them, and the first one is the
    match. *)

Module Re.

Inductive re :=
  | Eps
  | Cls (p : char -> bool)
  | Cat (r1 r2 : re)
  | Alt (r1 r2 : re)
  | Rep (greedy : bool) (lo : nat) (hi : option nat) (p : char -> bool)
  | Grp (k : nat) (r : re)
  | Eol.

(** Character classes. *)
Definition chr (c : char) : char -> bool := fun x => x =? c.
Definition oneof (cs : str) : char -> bool := fun x => existsb (N.eqb x) cs.
Definition range (a b : char) : char -> bool := fun x => (a <=? x) && (x <=? b).
Definition union (p q : char -> bool) : char -> bool := fun x => p x || q x.
(** [.] without DOTALL: anything but a line feed. *)
Definition dot : char -> bool := fun x => negb (x =? LF).
Definition digit : char -> bool := is_decimal.
Definition space : char -> bool := is_space.

(** Patterns from the pieces. *)
Fixpoint lit (w : str) : re :=
  match w with
  | [] => Eps
  | c :: w' => Cat (Cls (chr c)) (lit w')
  end.
Fixpoint cat (rs : list re) : re :=
  match rs with
  | [] => Eps
  | r :: rs' => Cat r (cat rs')
  end.
Definition star p := Rep true 0 None p.
Definition plus p := Rep true 1 None p.
Definition plus_lazy p := Rep false 1 None p.
Definition opt p := Rep true 0 (Some 1%nat) p.
Definition times n p := Rep true n (Some n) p.
Definition between m n p := Rep true m (Some n) p.
Definition opt_re r := Alt r Eps.

(** Number of capture groups, [len(match.groups())]. *)
Fixpoint ngroups (r : re) : nat :=
  match r with
  | Cat r1 r2 | Alt r1 r2 => (ngroups r1 + ngroups r2)%nat
  | Grp _ r1 => S (ngroups r1)
  | _ => 0%nat
  end.

(** Captured groups: group number and text, the latest first. *)
Definition caps := list (nat * str).

(** How many leading characters of [s] satisfy [p], at most [hi]. *)
Fixpoint span (p : char -> bool) (hi : option nat) (s : str) : nat :=
  match s with
  | c :: s' =>
      match hi with
      | Some O => O
      | _ => if p c then S (span p (pred <$> hi) s') else O
      end
  | [] => O
  end.

(** The repetition counts tried, in order: a greedy repetition tries
    the longest run first, a lazy one the shortest. *)
Definition rep_counts (greedy : bool) (lo : nat) (hi : option nat)
    (p : char -> bool) (s : str) : list nat :=
  let k := span p hi s in
  if (k <? lo)%nat then []
  else let up := seq lo (S k - lo) in
       if greedy then rev up else up.

(** The candidates of [r] at the start of [s], each with the groups it
    captured and the text left after it. *)
Fixpoint mre (r : re) (s : str) (g : caps) : list (caps * str) :=
  match r with
  | Eps => [(g, s)]
  | Cls p =>
      match s with
      | c :: s' => if p c then [(g, s')] else []
      | [] => []
      end
  | Cat r1 r2 => flat_map (fun gs => mre r2 (snd gs) (fst gs)) (mre r1 s g)
  | Alt r1 r2 => mre r1 s g ++ mre r2 s g
  | Rep greedy lo hi p =>
      map (fun n => (g, drop n s)) (rep_counts greedy lo hi p s)
  | Grp k r1 =>
      map (fun gs => ((k, take (length s - length (snd gs)) s) :: fst gs, snd gs))
          (mre r1 s g)
  | Eol =>
      (* [$]: at the end, or before a line feed that ends the text *)
      match s with
      | [] => [(g, s)]
      | [c] => if c =? LF then [(g, s)] else []
      | _ => []
      end
  end.

(** A match object. *)
Record rmatch := {
  m_start : nat;      (* [match.start()] *)
  m_text : str;       (* [match.group(0)] *)
  m_caps : caps;
  m_ngroups : nat     (* [len(match.groups())] *)
}.

Fixpoint search_from (r : re) (i : nat) (s : str) : option rmatch :=
  match mre r s [] with
  | (g, s') :: _ =>
      Some {| m_start := i; m_text := take (length s - length s') s;
              m_caps := g; m_ngroups := ngroups r |}
  | [] =>
      match s with
      | [] => None
      | _ :: t => search_from r (S i) t
      end
  end.

(** [re.search(r, s)]: the match at the leftmost position having one. *)
Definition search (r : re) (s : str) : option rmatch := search_from r 0 s.

Fixpoint cap_lookup (k : nat) (g : caps) : option str :=
  match g with
  | [] => None
  | (j, v) :: g' => if (j =? k)%nat then Some v else cap_lookup k g'
  end.

(** [match.group(k)]: [IndexError] ("no such group") for a group the
    pattern does not have, [None] for one that took no part. *)
Definition group (m : rmatch) (k : nat) : res (option str) :=
  match k with
  | O => Ok (Some (m_text m))
  | _ => if (m_ngroups m <? k)%nat then Raise IndexError
         else Ok (cap_lookup k (m_caps m))
  end.

(** [match.group(k).strip()]: [None] has no [strip]. *)
Definition group_strip (m : rmatch) (k : nat) : res str :=
  v ← group m k;
  match v with
  | Some s => Ok (strip s)
  | None => Raise AttributeError
  end.

(** [f"{match.group(k)}"] *)
Definition group_fmt (m : rmatch) (k : nat) : res str :=
  v ← group m k;
  match v with
  | Some s => Ok s
  | None => Ok (u "None")
  end.

(** A pattern with the text it has in the source. *)
Record pattern := { p_src : string; p_re : re }.

End Re.
Export Re.

(** ** binary64 floats, [float()] and [int()] *)

Module F64.

Definition float := spec_float.
Definition prec : Z := 53.
Definition emax : Z := 1024.

Definition fmul : float -> float -> float := SFmul prec emax.
Definition fdiv : float -> float -> float := SFdiv prec emax.
Definition fltb : float -> float -> bool := SFltb.

(** An integer as a float (exact for the constants of the source). *)
Definition of_Z (z : Z) : float := binary_normalize prec emax z 0 false.

(** The float nearest to [n / d] (ties to even). *)
Definition of_ratio (n d : positive) : float :=
  let '(q, e, l) := SFdiv_core_binary prec emax (Zpos n) 0 (Zpos d) 0 in
  binary_round_aux prec emax false q e l.

(** A decimal literal [n / 10^k]. *)
Definition of_decimal (n : N) (k : nat) : float :=
  match n with
  | N0 => S754_zero false
  | Npos p => of_ratio p (Z.to_pos (10 ^ Z.of_nat k))
  end.

End F64.

Module PyNum.
Import F64.

(** The digits of a run of decimal characters, as a number. *)
Definition digits_value (ds : str) : N :=
  fold_left (fun acc c => acc * 10 + default 0 (decimal_value c)) ds 0.

Fixpoint take_digits (s : str) : str * str :=
  match s with
  | c :: s' =>
      if is_decimal c
      then let '(ds, r) := take_digits s' in (c :: ds, r)
      else ([], s)
  | [] => ([], [])
  end.

(** [float(s)] on the strings the source passes to it, the text of a
    group [\d+\.?\d*]: digits, then optionally a point and digits.
    The result is the correctly rounded binary64 value; any other
    text is a [ValueError]. *)
Definition py_float (s : str) : res float :=
  let '(ip, r) := take_digits s in
  match ip, r with
  | [], _ => Raise ValueError
  | _, [] => Ok (of_decimal (digits_value ip) 0)
  | _, c :: r' =>
      if c =? 46 then
        let '(fp, r'') := take_digits r' in
        match r'' with
        | [] => Ok (of_decimal (digits_value (ip ++ fp)) (length fp))
        | _ => Raise ValueError
        end
      else Raise ValueError
  end.

(** [int(x)] on a float: truncation toward zero; infinities are an
    [OverflowError], NaN a [ValueError]. *)
Definition py_int (x : float) : res Z :=
  match x with
  | S754_zero _ => Ok 0%Z
  | S754_finite s m e =>
      let a := match e with
               | Zneg k => (Zpos m / 2 ^ Zpos k)%Z
               | _ => (Zpos m * 2 ^ e)%Z
               end in
      Ok (if s then (- a)%Z else a)
  | S754_infinity _ => Raise OverflowError
  | S754_nan => Raise ValueError
  end.

End PyNum.
Export PyNum.

(** ** Values of the label record *)

(** A nutrition panel, [Dict[str, Optional[str]]]. *)
Abbreviation panel := (gmap string (option str)).

Inductive value :=
  | VNone
  | VStr (s : str)
  | VDict (d : panel).

(** Python loops that return from the function at the first hit. *)
Fixpoint for_first {A B : Type} (body : A -> res (option B)) (l : list A)
    : res (option B) :=
  match l with
  | [] => Ok None
  | x :: l' =>
      r ← body x;
      match r with
      | Some v => Ok (Some v)
      | None => for_first body l'
      end
  end.

(** [for pattern in patterns: match = re.search(pattern, text); if match: return f(...)],
    then [return None] *)
Fixpoint first_match {B : Type} (f : pattern -> rmatch -> res (option B))
    (ps : list pattern) (text : str) : res (option B) :=
  match ps with
  | [] => Ok None
  | p :: ps' =>
      match search (p_re p) text with
      | Some m => f p m
      | None => first_match f ps' text
      end
  end.

(** [l[i]] *)
Definition getitem (l : list str) (i : nat) : res str :=
  match l !! i with
  | Some x => Ok x
  | None => Raise IndexError
  end.

(** [range(a, b)] *)
Definition range_ (a b : nat) : list nat := seq a (b - a).

(** Text literals, decoded when the definition is read. *)
Notation "'ustr' s" :=
  (ltac:(let v := eval vm_compute in (u s%string) in exact v))
  (at level 10, s at level 0, only parsing).

Local Close Scope N_scope.

(** ** [ocr-service/main.py]: the field extractors *)

Module Main.
Import F64.

(** [[:：]] *)
Definition colon : char -> bool := oneof (ustr ":：").
(** [[\u4e00-\u9fa5]] *)
Definition cjk : char -> bool := range 0x4e00%N 0x9fa5%N.
(** [\d+\.?\d*] *)
Definition number : re := cat [plus digit; opt (chr 46%N); star digit].
(** [(?:\n|$)] *)
Definition eol : re := Alt (Cls (chr LF)) Eol.
(** [(?:\.\d+)?] *)
Definition fraction : re := opt_re (cat [Cls (chr 46%N); plus digit]).

(** *** [extract_food_name] *)

Definition name_re : pattern :=
  {| p_src := "[名称][:：]\s*(.+)";
     p_re := cat [Cls (oneof (ustr "名称")); Cls colon; star space;
                  Grp 1 (plus dot)] |}.

Definition extract_food_name (text_lines : list str) (full_text : str)
    : res (option str) :=
  r ← for_first (fun line =>
         if contains (ustr "食品名称") line || contains (ustr "产品名称") line then
           match search (p_re name_re) line with
           | Some m => Some <$> group_strip m 1
           | None => Ok None
           end
         else Ok None) text_lines;
  match r with
  | Some v => Ok (Some v)
  | None =>
      for_first (fun line =>
        if (2 <? length line) && (length line <? 50)
        then Ok (Some (strip line)) else Ok None) text_lines
  end.

(** *** [extract_ingredients] *)

Definition ingredients_re : pattern :=
  {| p_src := "[配料表|成分|原料][:：]\s*(.+)";
     p_re := cat [Cls (oneof (ustr "配料表|成分|原料")); Cls colon; star space;
                  Grp 1 (plus dot)] |}.

(** The inner loop over the following lines; it breaks once the text
    is longer than 50 characters. *)
Fixpoint ingredients_more (text_lines : list str) (js : list nat)
    (ingredients : str) : res str :=
  match js with
  | [] => Ok ingredients
  | i :: js' =>
      li ← getitem text_lines i;
      if negb (bool_decide (strip li = [])) then
        li' ← getitem text_lines i;
        let ingredients' := ingredients ++ SP :: strip li' in
        if 50 <? length ingredients' then Ok ingredients'
        else ingredients_more text_lines js' ingredients'
      else ingredients_more text_lines js' ingredients
  end.

Definition extract_ingredients (text_lines : list str) (full_text : str)
    : res (option str) :=
  for_first (fun line =>
    if contains_any [ustr "配料"; ustr "成分"; ustr "原料"] line then
      match search (p_re ingredients_re) line with
      | Some m =>
          ingredients ← group_strip m 1;
          if length ingredients <? 10 then
            idx ← index line text_lines;
            ingredients' ← ingredients_more text_lines
              (range_ (idx + 1) (min (idx + 5) (length text_lines)))
              ingredients;
            Ok (Some (strip ingredients'))
          else Ok (Some (strip ingredients))
      | None => Ok None
      end
    else Ok None) text_lines.

(** *** [extract_net_content] *)

Definition net_content_patterns : list pattern :=
  [ {| p_src := "净含量[:：]\s*(\d+\.?\d*)\s*([克gG千克kgK毫升mlML升L])";
       p_re := cat [lit (ustr "净含量"); Cls colon; star space; Grp 1 number;
                    star space;
                    Grp 2 (Cls (oneof (ustr "克gG千克kgK毫升mlML升L")))] |};
    {| p_src := "净含量[:：]\s*(\d+\.?\d*)\s*([克千克克毫升升]+)";
       p_re := cat [lit (ustr "净含量"); Cls colon; star space; Grp 1 number;
                    star space;
                    Grp 2 (plus (oneof (ustr "克千克克毫升升")))] |};
    {| p_src := "(\d+\.?\d*)\s*[克gG][克gG]?\s*(?:/\s*[袋瓶盒包箱])";
       p_re := cat [Grp 1 number; star space; Cls (oneof (ustr "克gG"));
                    opt (oneof (ustr "克gG")); star space;
                    Cls (chr 47%N); star space;
                    Cls (oneof (ustr "袋瓶盒包箱"))] |} ].

Definition extract_net_content (full_text : str) : res (option str) :=
  first_match (fun p m =>
    value ← group_fmt m 1;
    unit ← (if 1 <? m_ngroups m then group_fmt m 2 else Ok (ustr "克"));
    Ok (Some (value ++ unit))) net_content_patterns full_text.

(** *** [extract_specification] *)

Definition specification_patterns : list pattern :=
  [ {| p_src := "规格[:：]\s*(.+?)(?:\n|$)";
       p_re := cat [lit (ustr "规格"); Cls colon; star space;
                    Grp 1 (plus_lazy dot); eol] |};
    {| p_src := "(\d+[\u4e00-\u9fa5]/[\u4e00-\u9fa5]+)";
       p_re := Grp 1 (cat [plus digit; Cls cjk; Cls (chr 47%N); plus cjk]) |};
    {| p_src := "(\d+)[克gGg]/[盒瓶包袋]";
       p_re := cat [Grp 1 (plus digit); Cls (oneof (ustr "克gGg"));
                    Cls (chr 47%N); Cls (oneof (ustr "盒瓶包袋"))] |} ].

Definition strip_group1 (p : pattern) (m : rmatch) : res (option str) :=
  Some <$> group_strip m 1.

Definition extract_specification (full_text : str) : res (option str) :=
  first_match strip_group1 specification_patterns full_text.

(** *** [extract_producer] *)

Definition producer_keywords : list str :=
  [ustr "生产商"; ustr "生产厂家"; ustr "制造商"; ustr "委托生产企业"; ustr "生产者"].

Definition producer_src : string := "{0}[:：]\s*(.+?)(?:\n|地址|电话)".

(** [producer_src.format(keyword)] *)
Definition producer_re (keyword : str) : re :=
  cat [lit keyword; Cls colon; star space; Grp 1 (plus_lazy dot);
       Alt (Cls (chr LF)) (Alt (lit (ustr "地址")) (lit (ustr "电话")))].

Definition extract_producer (text_lines : list str) (full_text : str)
    : res (option str) :=
  r ← for_first (fun keyword =>
         if contains keyword full_text then
           let idx := find keyword full_text in
           match search (producer_re keyword) (slice_from full_text idx) with
           | Some m => Some <$> group_strip m 1
           | None => Ok None
           end
         else Ok None) producer_keywords;
  match r with
  | Some v => Ok (Some v)
  | None =>
      for_first (fun line =>
        if contains (ustr "有限公司") line && negb (contains (ustr "地址") line)
           && (length line <? 50)
        then Ok (Some (strip line)) else Ok None) text_lines
  end.

(** *** [extract_address] *)

Definition address_re : pattern :=
  {| p_src := "地址[:：]\s*(.+)";
     p_re := cat [lit (ustr "地址"); Cls colon; star space; Grp 1 (plus dot)] |}.

Definition extract_address (text_lines : list str) (full_text : str)
    : res (option str) :=
  for_first (fun line =>
    if contains (ustr "地址") line then
      match search (p_re address_re) line with
      | Some m =>
          address ← group_strip m 1;
          if length address <? 10 then
            idx ← index line text_lines;
            if idx + 1 <? length text_lines then
              nxt ← getitem text_lines (idx + 1);
              Ok (Some (address ++ SP :: strip nxt))
            else Ok (Some address)
          else Ok (Some address)
      | None => Ok None
      end
    else Ok None) text_lines.

(** *** [extract_contact_info] *)

Definition phone : re :=
  cat [between 3 4 digit; opt (union (chr 45%N) space); between 7 8 digit].

Definition phone_patterns : list pattern :=
  [ {| p_src := "电话[:：]\s*(\d{3,4}[-\s]?\d{7,8})";
       p_re := cat [lit (ustr "电话"); Cls colon; star space; Grp 1 phone] |};
    {| p_src := "联系方式[:：]\s*(.+?)(?:\n|$)";
       p_re := cat [lit (ustr "联系方式"); Cls colon; star space;
                    Grp 1 (plus_lazy dot); eol] |};
    {| p_src := "(\d{3,4}[-\s]?\d{7,8})";
       p_re := Grp 1 phone |} ].

Definition extract_contact_info (full_text : str) : res (option str) :=
  first_match strip_group1 phone_patterns full_text.

(** *** [extract_production_date] *)

Definition production_date_patterns : list pattern :=
  [ {| p_src := "生产日期[:：]\s*(\d{4}[-/年]\d{1,2}[-/月]\d{1,2}[日]?)";
       p_re := cat [lit (ustr "生产日期"); Cls colon; star space;
                    Grp 1 (cat [times 4 digit; Cls (oneof (ustr "-/年"));
                                between 1 2 digit; Cls (oneof (ustr "-/月"));
                                between 1 2 digit; opt (oneof (ustr "日"))])] |};
    {| p_src := "生产日期[:：]\s*(\d{4}\.\d{1,2}\.\d{1,2})";
       p_re := cat [lit (ustr "生产日期"); Cls colon; star space;
                    Grp 1 (cat [times 4 digit; Cls (chr 46%N);
                                between 1 2 digit; Cls (chr 46%N);
                                between 1 2 digit])] |};
    {| p_src := "见封口|见瓶身|见包装";
       p_re := Alt (lit (ustr "见封口"))
                   (Alt (lit (ustr "见瓶身")) (lit (ustr "见包装"))) |} ].

Definition extract_production_date (full_text : str) : res (option str) :=
  first_match strip_group1 production_date_patterns full_text.

(** *** [extract_shelf_life] *)

Definition shelf_life_patterns : list pattern :=
  [ {| p_src := "保质期[:：]\s*(\d+)\s*([个月天年周])";
       p_re := cat [lit (ustr "保质期"); Cls colon; star space;
                    Grp 1 (plus digit); star space;
                    Grp 2 (Cls (oneof (ustr "个月天年周")))] |};
    {| p_src := "保质期[:：]\s*(.+?)(?:\n|$)";
       p_re := cat [lit (ustr "保质期"); Cls colon; star space;
                    Grp 1 (plus_lazy dot); eol] |} ].

Definition extract_shelf_life (full_text : str) : res (option str) :=
  first_match (fun p m =>
    if 1 <? m_ngroups m then
      a ← group_fmt m 1; b ← group_fmt m 2; Ok (Some (a ++ b))
    else Some <$> group_strip m 1) shelf_life_patterns full_text.

(** *** [extract_storage_conditions] *)

Definition storage_keywords : list str :=
  [ustr "贮存"; ustr "保存"; ustr "储藏"; ustr "存放"].
Definition storage_stop : list str :=
  [ustr "生产"; ustr "厂址"; ustr "电话"].

(** The inner loop: a blank line or a line of another field breaks it. *)
Fixpoint storage_more (text_lines : list str) (js : list nat) (storage : str)
    : res str :=
  match js with
  | [] => Ok storage
  | i :: js' =>
      li ← getitem text_lines i;
      if negb (bool_decide (strip li = [])) && negb (contains_any storage_stop li)
      then storage_more text_lines js' (storage ++ SP :: strip li)
      else Ok storage
  end.

Definition extract_storage_conditions (text_lines : list str) (full_text : str)
    : res (option str) :=
  for_first (fun line =>
    if contains_any storage_keywords line then
      let storage := strip line in
      idx ← index line text_lines;
      storage' ← storage_more text_lines
        (range_ (idx + 1) (min (idx + 3) (length text_lines))) storage;
      Ok (Some storage')
    else Ok None) text_lines.

(** *** [extract_license_number] *)

Definition license_sc : pattern :=
  {| p_src := "SC[1|2]\d{13}";
     p_re := cat [lit (ustr "SC"); Cls (oneof (ustr "1|2")); times 13 digit] |}.
Definition license_qs : pattern :=
  {| p_src := "QS\d{12}";
     p_re := cat [lit (ustr "QS"); times 12 digit] |}.
Definition license_label : pattern :=
  {| p_src := "生产许可证编号[:：]\s*(SC\d+)";
     p_re := cat [lit (ustr "生产许可证编号"); Cls colon; star space;
                  Grp 1 (cat [lit (ustr "SC"); plus digit])] |}.

Definition license_patterns : list pattern :=
  [license_sc; license_qs; license_label].

Definition extract_license_number (full_text : str) : res (option str) :=
  first_match (fun p m =>
    if String.prefix "SC" (p_src p) || String.prefix "QS" (p_src p)
    then group m 0 else group m 1) license_patterns full_text.

(** *** [extract_standard_code] *)

Definition standard_code_patterns : list pattern :=
  [ {| p_src := "产品标准代号[:：]\s*([A-Z]{1,2}/[T]\s*\d+(?:\.\d+)?)";
       p_re := cat [lit (ustr "产品标准代号"); Cls colon; star space;
                    Grp 1 (cat [between 1 2 (range 65%N 90%N); Cls (chr 47%N);
                                Cls (chr 84%N); star space; plus digit;
                                fraction])] |};
    {| p_src := "GB\s*/?\s*T\s*\d+(?:\.\d+)?";
       p_re := cat [lit (ustr "GB"); star space; opt (chr 47%N); star space;
                    Cls (chr 84%N); star space; plus digit; fraction] |};
    {| p_src := "QB\s*/?\s*\d+(?:\.\d+)?";
       p_re := cat [lit (ustr "QB"); star space; opt (chr 47%N); star space;
                    plus digit; fraction] |};
    {| p_src := "[A-Z]{1,2}/[T]\s*\d+(?:\.\d+)?";
       p_re := cat [between 1 2 (range 65%N 90%N); Cls (chr 47%N);
                    Cls (chr 84%N); star space; plus digit; fraction] |} ].

(** [match.group(1) if len(match.groups()) > 0 else match.group(0)] *)
Definition group1_or_0 (p : pattern) (m : rmatch) : res (option str) :=
  if 0 <? m_ngroups m then group m 1 else group m 0.

Definition extract_standard_code (full_text : str) : res (option str) :=
  first_match group1_or_0 standard_code_patterns full_text.

(** *** [extract_quality_grade] *)

Definition grade_chars : char -> bool := oneof (ustr "一二三四特优").

Definition quality_grade_patterns : list pattern :=
  [ {| p_src := "质量等级[:：]\s*(.+?)(?:\n|$)";
       p_re := cat [lit (ustr "质量等级"); Cls colon; star space;
                    Grp 1 (plus_lazy dot); eol] |};
    {| p_src := "等级[:：]\s*([一二三四特优]+等)";
       p_re := cat [lit (ustr "等级"); Cls colon; star space;
                    Grp 1 (cat [plus grade_chars; lit (ustr "等")])] |};
    {| p_src := "([一二三四特优]+等品)";
       p_re := Grp 1 (cat [plus grade_chars; lit (ustr "等品")]) |} ].

Definition extract_quality_grade (full_text : str) : res (option str) :=
  first_match strip_group1 quality_grade_patterns full_text.

(** *** [extract_allergens] *)

Definition allergen_keywords : list str :=
  [ ustr "含有"; ustr "过敏"; ustr "致敏物质"; ustr "过敏原";
    ustr "花生"; ustr "坚果"; ustr "牛奶"; ustr "乳制品"; ustr "鸡蛋";
    ustr "大豆"; ustr "小麦"; ustr "鱼类"; ustr "甲壳类"; ustr "芝麻" ].

Definition allergens_re : pattern :=
  {| p_src := "(?:致敏物质|过敏原|含有)[:：]?\s*(.+?)(?:\n|$)";
     p_re := cat [Alt (lit (ustr "致敏物质"))
                      (Alt (lit (ustr "过敏原")) (lit (ustr "含有")));
                  opt colon; star space; Grp 1 (plus_lazy dot); eol] |}.

Definition extract_allergens (full_text : str) : res (option str) :=
  for_first (fun keyword =>
    if contains keyword full_text then
      match search (p_re allergens_re) full_text with
      | Some m => Some <$> group_strip m 1
      | None => Ok (Some (ustr "含有" ++ keyword))
      end
    else Ok None) allergen_keywords.

(** *** [calculate_nrv] *)

(** Reference intakes (GB 28050-2011), in the order the loop visits them. *)
Definition nrv_values : list (string * Z) :=
  [ ("energy", 8400); ("protein", 60); ("fat", 60);
    ("carbohydrate", 300); ("sugar", 50); ("sodium", 2000) ]%Z.

Definition nrv_number_re : pattern :=
  {| p_src := "(\d+\.?\d*)"; p_re := Grp 1 number |}.
Definition nrv_unit_re : pattern :=
  {| p_src := "(kcal|千卡|kJ|千焦)";
     p_re := Grp 1 (Alt (lit (ustr "kcal"))
                   (Alt (lit (ustr "千卡"))
                   (Alt (lit (ustr "kJ")) (lit (ustr "千焦"))))) |}.

(** The literal [4.184]. *)
Definition kcal_to_kJ : float := of_decimal 4184 3.

(** [unit in ['kcal', '千卡']] *)
Definition is_kcal (unit : option str) : bool :=
  match unit with
  | Some w => str_eqb w (ustr "kcal") || str_eqb w (ustr "千卡")
  | None => false
  end.

(** The unit conversion of one entry. *)
Definition nrv_convert (entry : str) (value : float) : res float :=
  match search (p_re nrv_unit_re) entry with
  | Some unit_match =>
      unit ← group unit_match 1;
      if is_kcal unit then Ok (fmul value kcal_to_kJ) else Ok value
  | None => Ok value
  end.

(** [int((value / nrv_ref) * 100)] *)
Definition nrv_percent (value : float) (nrv_ref : Z) : res Z :=
  py_int (fmul (fdiv value (of_Z nrv_ref)) (of_Z 100)).

(** One round of the loop over [nrv_values]. *)
Definition nrv_step (nutrition : panel) (kr : string * Z) : res panel :=
  let '(key, nrv_ref) := kr in
  match nutrition !! key with
  | Some (Some entry) =>
      if negb (bool_decide (entry = [])) then
        match search (p_re nrv_number_re) entry with
        | Some value_match =>
            txt ← group value_match 1;
            value ← match txt with
                    | Some t => py_float t
                    | None => Raise ValueError
                    end;
            value' ← nrv_convert entry value;
            percent ← nrv_percent value' nrv_ref;
            Ok (<[key +:+ "NRV" := Some (str_of_Z percent ++ ustr "%")]> nutrition)
        | None => Ok nutrition
        end
      else Ok nutrition
  | _ => Ok nutrition
  end.

Fixpoint nrv_loop (krs : list (string * Z)) (nutrition : panel) : res panel :=
  match krs with
  | [] => Ok nutrition
  | kr :: krs' => n ← nrv_step nutrition kr; nrv_loop krs' n
  end.

Definition calculate_nrv (nutrition : panel) : res panel :=
  nrv_loop nrv_values nutrition.

(** *** [extract_nutrition_from_table] *)

Definition nutrition_keywords : list str :=
  [ustr "能量"; ustr "蛋白质"; ustr "脂肪"; ustr "碳水化合物"; ustr "糖"; ustr "钠"].

Definition key_map : list (str * string) :=
  [ (ustr "能量", "energy"); (ustr "蛋白质", "protein"); (ustr "脂肪", "fat");
    (ustr "碳水化合物", "carbohydrate"); (ustr "糖", "sugar");
    (ustr "钠", "sodium") ].

(** [key_map.get(keyword)] *)
Fixpoint key_map_get (m : list (str * string)) (keyword : str) : option string :=
  match m with
  | [] => None
  | (k, v) :: m' => if str_eqb k keyword then Some v else key_map_get m' keyword
  end.

Definition table_src : string :=
  "{0}[:：\s]*(\d+\.?\d*)\s*([a-zA-Z\u4e00-\u9fa5]+)".

(** [table_src.format(keyword)] *)
Definition table_re (keyword : str) : re :=
  cat [lit keyword; star (union colon space); Grp 1 number; star space;
       Grp 2 (plus (union (range 97%N 122%N) (union (range 65%N 90%N) cjk)))].

Definition table_keyword (line : str) (nutrition : panel) (keyword : str)
    : res panel :=
  if contains keyword line then
    match search (table_re keyword) line with
    | Some m =>
        match key_map_get key_map keyword with
        | Some en_key =>
            a ← group_fmt m 1; b ← group_fmt m 2;
            Ok (<[en_key := Some (a ++ b)]> nutrition)
        | None => Ok nutrition
        end
    | None => Ok nutrition
    end
  else Ok nutrition.

Fixpoint table_line (line : str) (kws : list str) (nutrition : panel)
    : res panel :=
  match kws with
  | [] => Ok nutrition
  | kw :: kws' => n ← table_keyword line nutrition kw; table_line line kws' n
  end.

Fixpoint table_lines (ls : list str) (nutrition : panel) : res panel :=
  match ls with
  | [] => Ok nutrition
  | line :: ls' =>
      n ← table_line line nutrition_keywords nutrition; table_lines ls' n
  end.

Definition extract_nutrition_from_table (text_lines : list str) : res panel :=
  table_lines text_lines ∅.

(** *** [extract_nutrition] *)

Definition gram_re (label : str) : re :=
  cat [lit label; star (union colon space); Grp 1 number; star space;
       Cls (chr 103%N)].

Definition nutrition_patterns : list (string * list pattern) :=
  [ ("energy",
      [ {| p_src := "能量[:：\s]*(\d+\.?\d*)\s*(kJ|千焦|kcal|千卡)";
           p_re := cat [lit (ustr "能量"); star (union colon space);
                        Grp 1 number; star space;
                        Grp 2 (Alt (lit (ustr "kJ"))
                              (Alt (lit (ustr "千焦"))
                              (Alt (lit (ustr "kcal")) (lit (ustr "千卡")))))] |};
        {| p_src := "能量\s*(\d+\.?\d*)\s*(千焦|kJ)";
           p_re := cat [lit (ustr "能量"); star space; Grp 1 number; star space;
                        Grp 2 (Alt (lit (ustr "千焦")) (lit (ustr "kJ")))] |} ]);
    ("protein",
      [ {| p_src := "蛋白质[:：\s]*(\d+\.?\d*)\s*g";
           p_re := gram_re (ustr "蛋白质") |} ]);
    ("fat",
      [ {| p_src := "脂肪[:：\s]*(\d+\.?\d*)\s*g";
           p_re := gram_re (ustr "脂肪") |} ]);
    ("carbohydrate",
      [ {| p_src := "碳水化合物[:：\s]*(\d+\.?\d*)\s*g";
           p_re := gram_re (ustr "碳水化合物") |} ]);
    ("sugar",
      [ {| p_src := "糖[:：\s]*(\d+\.?\d*)\s*g";
           p_re := gram_re (ustr "糖") |} ]);
    ("sodium",
      [ {| p_src := "钠[:：\s]*(\d+\.?\d*)\s*mg";
           p_re := cat [lit (ustr "钠"); star (union colon space); Grp 1 number;
                        star space; lit (ustr "mg")] |} ]) ].

(** The inner loop of one nutrient: the first pattern that matches
    sets the entry, then [break]. *)
Definition inline_entry (full_text : str) (ps : list pattern)
    : res (option str) :=
  first_match (fun p m =>
    value ← group_fmt m 1;
    unit ← (if 1 <? m_ngroups m then group_fmt m 2 else Ok []);
    Ok (Some (value ++ unit))) ps full_text.

Fixpoint inline_loop (full_text : str) (kps : list (string * list pattern))
    (nutrition : panel) : res panel :=
  match kps with
  | [] => Ok nutrition
  | (key, ps) :: kps' =>
      r ← inline_entry full_text ps;
      inline_loop full_text kps'
        match r with
        | Some v => <[key := Some v]> nutrition
        | None => nutrition
        end
  end.

Definition extract_nutrition (text_lines : list str) (full_text : str)
    : res panel :=
  nutrition ← inline_loop full_text nutrition_patterns ∅;
  nutrition ← (if bool_decide (nutrition = ∅)
               then extract_nutrition_from_table text_lines
               else Ok nutrition);
  if negb (bool_decide (nutrition = ∅)) then calculate_nrv nutrition
  else Ok nutrition.

(** *** [extract_warning], [extract_irradiated], [extract_barcode] *)

Definition extract_warning (text_lines : list str) (full_text : str)
    : res (option str) :=
  for_first (fun line =>
    if contains_any [ustr "警示"; ustr "注意"; ustr "警告"] line
    then Ok (Some (strip line)) else Ok None) text_lines.

Definition extract_irradiated (full_text : str) : res (option str) :=
  if contains (ustr "辐照") full_text || contains (ustr "本产品经辐照") full_text
  then Ok (Some (ustr "本品已辐照"))
  else Ok None.

Definition barcode_label : pattern :=
  {| p_src := "条码[:：]\s*(\d{13})";
     p_re := cat [lit (ustr "条码"); Cls colon; star space;
                  Grp 1 (times 13 digit)] |}.
Definition barcode_69 : pattern :=
  {| p_src := "69\d{11}";
     p_re := cat [lit (ustr "69"); times 11 digit] |}.

Definition barcode_patterns : list pattern := [barcode_label; barcode_69].

Definition extract_barcode (full_text : str) : res (option str) :=
  first_match group1_or_0 barcode_patterns full_text.

(** *** [parse_food_label] *)

Definition opt_value (v : option str) : value :=
  match v with
  | Some s => VStr s
  | None => VNone
  end.

(** [v if v is not None else ''] *)
Definition clean (v : value) : value :=
  match v with
  | VNone => VStr []
  | _ => v
  end.

Definition parse_food_label (text_lines : list str) : res (gmap string value) :=
  let full_text := join [LF] text_lines in
  name ← extract_food_name text_lines full_text;
  ingredients ← extract_ingredients text_lines full_text;
  netContent ← extract_net_content full_text;
  specification ← extract_specification full_text;
  producer ← extract_producer text_lines full_text;
  address ← extract_address text_lines full_text;
  contactInfo ← extract_contact_info full_text;
  productionDate ← extract_production_date full_text;
  shelfLife ← extract_shelf_life full_text;
  storageConditions ← extract_storage_conditions text_lines full_text;
  foodProductionLicenseNumber ← extract_license_number full_text;
  productStandardCode ← extract_standard_code full_text;
  qualityGrade ← extract_quality_grade full_text;
  allergens ← extract_allergens full_text;
  nutrition ← extract_nutrition text_lines full_text;
  warning ← extract_warning text_lines full_text;
  irradiated ← extract_irradiated full_text;
  commodityBarcode ← extract_barcode full_text;
  let food_label : gmap string value :=
    list_to_map
      [ ("name", opt_value name);
        ("ingredients", opt_value ingredients);
        ("netContent", opt_value netContent);
        ("specification", opt_value specification);
        ("producer", opt_value producer);
        ("address", opt_value address);
        ("contactInfo", opt_value contactInfo);
        ("productionDate", opt_value productionDate);
        ("shelfLife", opt_value shelfLife);
        ("storageConditions", opt_value storageConditions);
        ("foodProductionLicenseNumber", opt_value foodProductionLicenseNumber);
        ("productStandardCode", opt_value productStandardCode);
        ("qualityGrade", opt_value qualityGrade);
        ("allergens", opt_value allergens);
        ("nutrition", VDict nutrition);
        ("warning", opt_value warning);
        ("irradiated", opt_value irradiated);
        ("commodityBarcode", opt_value commodityBarcode) ] in
  Ok (clean <$> food_label).

(** *** [extract_text_lines] *)

(** One detected region of the OCR engine: [[box, (text, confidence)]].
    The box takes no part in the extraction.  The guards
    [len(line) >= 2], [line[1]] and [len(line[1]) > 1] of the source
    hold for every region of this shape. *)
Record region := { r_text : str; r_confidence : float }.

(** The engine's result: [None], or a list of pages, of which a page
    without text is [None]; only the first page is read. *)
Definition ocr_result := option (list (option (list region))).

(** The literal [0.1]. *)
Definition threshold : float := of_decimal 1 1.

(** [confidence > 0.1 and text.strip()] *)
Definition keep (r : region) : bool :=
  fltb threshold (r_confidence r) && negb (bool_decide (strip (r_text r) = [])).

Fixpoint text_loop (page : list region) (text_lines : list str) : list str :=
  match page with
  | [] => text_lines
  | r :: page' =>
      text_loop page' (if keep r then text_lines ++ [strip (r_text r)]
                       else text_lines)
  end.

Definition extract_text_lines (result : ocr_result) : list str :=
  match result with
  | None | Some [] => []
  | Some (None :: _) => []     (* the [TypeError] is caught and logged *)
  | Some (Some page :: _) => text_loop page []
  end.

End Main.
Export Main.

(** ** Sample corpora *)

(** The bread label of the specification. *)
Definition bread_lines : list str :=
  [ u "全麦吐司面包"; u "配料：全麦粉、小麦粉、水"; u "净含量：400g";
    u "XX烘焙食品有限公司"; u "生产日期：2025-04-20"; u "保质期：7天" ].

(** A nutrition line with an energy, a protein and a fat entry. *)
Definition nutrition_line : str := u "能量 1450kJ 蛋白质10.2g 脂肪5.6g".

(** A label that points to the seal for its production date. *)
Definition seal_lines : list str := [u "生产日期见封口"].

(** The eighteen keys of the label record. *)
Definition label_keys : gset string :=
  list_to_set
    [ "name"; "ingredients"; "netContent"; "specification"; "producer";
      "address"; "contactInfo"; "productionDate"; "shelfLife";
      "storageConditions"; "foodProductionLicenseNumber";
      "productStandardCode"; "qualityGrade"; "allergens"; "nutrition";
      "warning"; "irradiated"; "commodityBarcode" ].

(** [''] for a field that was not found. *)
Definition field (v : option str) : value := VStr (default [] v).

(** The record of a label from the results of the extractors. *)
Definition record_of (name ingredients netContent specification producer
    address contactInfo productionDate shelfLife storageConditions
    foodProductionLicenseNumber productStandardCode qualityGrade allergens
    : option str) (nutrition : panel) (warning irradiated commodityBarcode
    : option str) : gmap string value :=
  list_to_map
    [ ("name", field name); ("ingredients", field ingredients);
      ("netContent", field netContent);
      ("specification", field specification);
      ("producer", field producer); ("address", field address);
      ("contactInfo", field contactInfo);
      ("productionDate", field productionDate);
      ("shelfLife", field shelfLife);
      ("storageConditions", field storageConditions);
      ("foodProductionLicenseNumber", field foodProductionLicenseNumber);
      ("productStandardCode", field productStandardCode);
      ("qualityGrade", field qualityGrade); ("allergens", field allergens);
      ("nutrition", VDict nutrition); ("warning", field warning);
      ("irradiated", field irradiated);
      ("commodityBarcode", field commodityBarcode) ].

(** The regions the engine detected on the page that is read. *)
Definition regions_of (result : ocr_result) : list region :=
  match result with
  | Some (Some page :: _) => page
  | _ => []
  end.

(** A region survives when its confidence is strictly above the
    threshold and its trimmed text is not empty. *)
Definition survives (r : region) : Prop :=
  F64.fltb (F64.of_decimal 1 1) (r_confidence r) = true /\ strip (r_text r) <> [].

#[export] Instance survives_dec r : Decision (survives r).
Proof. unfold survives. apply _. Defined.

#[export] Instance exn_eq_dec : EqDecision exn.
Proof. solve_decision. Defined.

#[export] Instance value_eq_dec : EqDecision value.
Proof. solve_decision. Defined.

(** A result is [Ok a], as a test that evaluates. *)
Definition is_ok_eq {A} `{EqDecision A} (r : res A) (a : A) : bool :=
  match r with
  | Ok x => bool_decide (x = a)
  | Raise _ => false
  end.

(** The match object of a candidate found at position [i] of a text
    of which [s] is left. *)
Definition mk_match (r : re) (i : nat) (s : str) (g : caps) (s' : str) : rmatch :=
  {| m_start := i; m_text := take (length s - length s') s;
     m_caps := g; m_ngroups := ngroups r |}.

(** A match object moved [i] positions to the right. *)
Definition shift_match (i : nat) (m : rmatch) : rmatch :=
  {| m_start := i + m_start m; m_text := m_text m;
     m_caps := m_caps m; m_ngroups := m_ngroups m |}.

(** ** Vocabulary of the nutrition panel *)

(** The key of the percentage of a nutrient. *)
Definition nrv_key (key : string) : string := key +:+ "NRV".

Definition nutrient_keys : list string := nrv_values.*1.
Definition nrv_keys : list string := nrv_key <$> nutrient_keys.

(** What the entry of one nutrient contributes in [calculate_nrv]: the
    text of its percentage, or nothing when the entry is missing, empty
    or without a number. *)
Definition nrv_entry (entry : option (option str)) (nrv_ref : Z) : res (option str) :=
  match entry with
  | Some (Some entry) =>
      if negb (bool_decide (entry = [])) then
        match search (p_re nrv_number_re) entry with
        | Some value_match =>
            txt ← group value_match 1;
            value ← match txt with
                    | Some t => py_float t
                    | None => Raise ValueError
                    end;
            value' ← nrv_convert entry value;
            percent ← nrv_percent value' nrv_ref;
            Ok (Some (str_of_Z percent ++ ustr "%"))
        | None => Ok None
        end
      else Ok None
  | _ => Ok None
  end.

(** The text of a number as the patterns capture it: digits, then
    possibly a point and further digits. *)
Definition number_text (num : str) : Prop :=
  exists ip fp,
    ip <> [] /\ Forall (fun c => is_decimal c = true) ip /\
    Forall (fun c => is_decimal c = true) fp /\
    (num = ip \/ num = ip ++ 46%N :: fp).

(** A panel with an energy entry and a stale percentage. *)
Definition stale_panel : panel :=
  <["energy" := Some (u "100kJ")]> (<["energyNRV" := Some (u "n/a")]> ∅).

(** [stale_panel] after [calculate_nrv]. *)
Definition stale_panel_after : panel :=
  <["energy" := Some (u "100kJ")]> (<["energyNRV" := Some (u "1%")]> ∅).

(** ** Vocabulary of occurrences *)

(** [w] occurs in [text]. *)
Definition occurs (w text : str) : Prop :=
  exists pre post, text = pre ++ w ++ post.

(** [w] is the leftmost word of the shape [L] in [text]. *)
Definition leftmost (L : str -> Prop) (text w : str) : Prop :=
  exists pre post,
    text = pre ++ w ++ post /\ L w /\
    forall pre' w' post', text = pre' ++ w' ++ post' -> L w' ->
                          length pre ≤ length pre'.

(** [n] decimal digits. *)
Definition digits (n : nat) (ds : str) : Prop :=
  length ds = n /\ Forall (fun d => is_decimal d = true) ds.

(** The shapes of the license patterns: SC, one character of the class
    [[1|2]], thirteen digits; QS and twelve digits; SC and at least one
    digit after the label. *)
Definition sc_code (code : str) : Prop :=
  exists c ds, code = u "SC" ++ c :: ds /\ oneof (u "1|2") c = true /\ digits 13 ds.
Definition qs_code (code : str) : Prop :=
  exists ds, code = u "QS" ++ ds /\ digits 12 ds.
Definition labelled_code (code : str) : Prop :=
  exists ds, code = u "SC" ++ ds /\ ds <> [] /\
             Forall (fun d => is_decimal d = true) ds.

(** Where the text after a run of digits taken in full may begin: not
    with a digit. *)
Definition digits_end (post : str) : Prop :=
  match post with
  | [] => True
  | c :: _ => is_decimal c = false
  end.

(** ** Vocabulary of the multi-line fields *)

(** The value after the label on a line that holds one of the keywords
    and matches the pattern. *)
Definition labelled_value (kws : list str) (p : pattern) (line : str)
    : res (option str) :=
  if contains_any kws line then
    match search (p_re p) line with
    | Some m => Some <$> group_strip m 1
    | None => Ok None
    end
  else Ok None.

Definition ingredients_value : str -> res (option str) :=
  labelled_value [ustr "配料"; ustr "成分"; ustr "原料"] ingredients_re.

Definition address_value (line : str) : res (option str) :=
  if contains (ustr "地址") line then
    match search (p_re address_re) line with
    | Some m => Some <$> group_strip m 1
    | None => Ok None
    end
  else Ok None.

(** A value continued with the following lines: every line that is not
    blank is appended after a space, until the text is longer than 50
    characters. *)
Fixpoint append_to_50 (acc : str) (ls : list str) : str :=
  match ls with
  | [] => acc
  | l :: ls' =>
      if bool_decide (strip l = []) then append_to_50 acc ls'
      else
        let acc' := acc ++ SP :: strip l in
        if 50 <? length acc' then acc' else append_to_50 acc' ls'
  end.

(** A value continued with the following lines up to the first one that
    is blank or holds a stop keyword. *)
Fixpoint append_until (stop : list str) (acc : str) (ls : list str) : str :=
  match ls with
  | [] => acc
  | l :: ls' =>
      if bool_decide (strip l = []) || contains_any stop l then acc
      else append_until stop (acc ++ SP :: strip l) ls'
  end.

(** An address spread over three short lines. *)
Definition address_lines : list str :=
  [u "地址：北京市"; u "朝阳区"; u "建国路1号"].

(** A storage line followed by a producer and a telephone line. *)
Definition storage_lines : list str :=
  [u "贮存条件：阴凉干燥处"; u "避免阳光直射"; u "电话：010-12345678"].

(** ** Vocabulary of groups and errors *)

(** The groups that every candidate of a pattern captures. *)
Fixpoint must_groups (r : re) : list nat :=
  match r with
  | Cat r1 r2 => must_groups r1 ++ must_groups r2
  | Alt r1 r2 => filter (fun k => k ∈ must_groups r2) (must_groups r1)
  | Grp k r1 => k :: must_groups r1
  | _ => []
  end.

(** Group [k] exists in the pattern and takes part in every match. *)
Definition has_group (k : nat) (r : re) : bool :=
  bool_decide (k ∈ must_groups r) && (k <=? ngroups r).

(** The regular expression of the [i]-th pattern of a list. *)
Definition pattern_at (ps : list pattern) (i : nat) : re :=
  match ps !! i with
  | Some p => p_re p
  | None => Cls (fun _ => false)
  end.

(** Floats that are neither negative nor NaN. *)
Definition nonneg_float (x : F64.float) : Prop :=
  match x with
  | S754_nan => False
  | S754_zero s | S754_infinity s | S754_finite s _ _ => s = false
  end.

(** Floats that are finite and positive. *)
Definition pos_finite (x : F64.float) : Prop :=
  match x with
  | S754_finite false _ _ => True
  | _ => False
  end.

(** The tokens that send the reader to the package for the date. *)
Definition see_package (w : str) : Prop :=
  w = u "见封口" \/ w = u "见瓶身" \/ w = u "见包装".

(** The shapes of the dated patterns, before the text [post] that
    follows: a year of four digits, a month and a day of one or two
    digits, the day with its second digit when there is one; after the
    year one of [-/年] and after the month one of [-/月], with 日 after
    the day when it is there; or a point after the year and after the
    month. *)
Definition date_text (v post : str) : Prop :=
  exists y s1 m s2 d e,
    v = y ++ s1 :: m ++ s2 :: d ++ e /\
    digits 4 y /\
    1 ≤ length m ≤ 2 /\ Forall (fun c => is_decimal c = true) m /\
    1 ≤ length d ≤ 2 /\ Forall (fun c => is_decimal c = true) d /\
    (length d = 2 \/ digits_end (e ++ post)) /\
    ((oneof (u "-/年") s1 = true /\ oneof (u "-/月") s2 = true /\
      (e = u "日" \/ e = [] /\ forall post', post <> u "日" ++ post')) \/
     (s1 = 46%N /\ s2 = 46%N /\ e = [])).

(** [v] is a date written in [text] after the label 生产日期, a colon
    and blanks. *)
Definition date_at (text v : str) : Prop :=
  exists pre c ws post,
    text = pre ++ u "生产日期" ++ c :: ws ++ v ++ post /\
    colon c = true /\ Forall (fun c => is_space c = true) ws /\
    date_text v post.

(** A panel whose energy entry has 401 digits. *)
Definition huge_panel : panel :=
  {[ "energy" := Some (u "1" ++ replicate 400 48%N ++ u "kJ") ]}.

(** ** Vocabulary of the assembled label *)

(** [r] is the record of the results of the eighteen extractors on a
    list of lines and a full text. *)
Definition extracted (text_lines : list str) (full_text : str)
    (r : gmap string value) : Prop :=
  exists name ingredients netContent specification producer address
         contactInfo productionDate shelfLife storageConditions
         foodProductionLicenseNumber productStandardCode qualityGrade
         allergens nutrition warning irradiated commodityBarcode,
    extract_food_name text_lines full_text = Ok name /\
    extract_ingredients text_lines full_text = Ok ingredients /\
    extract_net_content full_text = Ok netContent /\
    extract_specification full_text = Ok specification /\
    extract_producer text_lines full_text = Ok producer /\
    extract_address text_lines full_text = Ok address /\
    extract_contact_info full_text = Ok contactInfo /\
    extract_production_date full_text = Ok productionDate /\
    extract_shelf_life full_text = Ok shelfLife /\
    extract_storage_conditions text_lines full_text = Ok storageConditions /\
    extract_license_number full_text = Ok foodProductionLicenseNumber /\
    extract_standard_code full_text = Ok productStandardCode /\
    extract_quality_grade full_text = Ok qualityGrade /\
    extract_allergens full_text = Ok allergens /\
    extract_nutrition text_lines full_text = Ok nutrition /\
    extract_warning text_lines full_text = Ok warning /\
    extract_irradiated full_text = Ok irradiated /\
    extract_barcode full_text = Ok commodityBarcode /\
    r = record_of name ingredients netContent specification producer address
          contactInfo productionDate shelfLife storageConditions
          foodProductionLicenseNumber productStandardCode qualityGrade
          allergens nutrition warning irradiated commodityBarcode.

(** An OCR result of four regions: a specification with blanks around
    it, a shelf life whose confidence is the threshold itself, a blank
    region, and a production date just above the threshold. *)
Definition ocr_sample : ocr_result :=
  Some [ Some
    [ {| r_text := u "  规格：500g "; r_confidence := F64.of_decimal 9 1 |};
      {| r_text := u "保质期：7天"; r_confidence := F64.of_decimal 1 1 |};
      {| r_text := u "   "; r_confidence := F64.of_decimal 9 1 |};
      {| r_text := u "生产日期：2025-04-20";
         r_confidence := F64.of_decimal 11 2 |} ] ].

(** The lines that [extract_text_lines] keeps of [ocr_sample]. *)
Definition sample_lines : list str :=
  [u "规格：500g"; u "生产日期：2025-04-20"].

(** ** Vocabulary of the percentages *)




(** The percentage in the words of the specification: the truncation to
    an integer of value / reference * 100, in exact arithmetic, for the
    value [digits / 10 ^ scale]. *)
Definition spec_percent (digits : Z) (scale : nat) (nrv_ref : Z) : Z :=
  Z.quot (digits * 100) (10 ^ Z.of_nat scale * nrv_ref).

(** A protein entry of 17.4 g, and the panel after [calculate_nrv]. *)
Definition protein_panel : panel := {[ "protein" := Some (u "17.4g") ]}.
Definition protein_panel_after : panel :=
  <["proteinNRV" := Some (u "28%")]> protein_panel.


(** * Properties *)

(** ** The error monad *)

Lemma bind_Ok {A B} (m : res A) (f : A -> res B) b :
  m ≫= f = Ok b -> exists a, m = Ok a /\ f a = Ok b.
Proof. destruct m as [a|e]; [eauto|discriminate]. Qed.

Lemma fmap_Ok {A B} (m : res A) (f : A -> B) b :
  f <$> m = Ok b -> exists a, m = Ok a /\ b = f a.
Proof. destruct m as [a|e]; [intros [= <-]; eauto|discriminate]. Qed.

Lemma Ok_inj {A} (a b : A) : Ok a = Ok b -> a = b.
Proof. by intros [=]. Qed.

Ltac bind_ok H :=
  let a := fresh "a" in
  let E := fresh "E" in
  apply bind_Ok in H as (a & E & H).

Lemma is_ok_eq_true {A} `{EqDecision A} (r : res A) (a : A) :
  is_ok_eq r a = true -> r = Ok a.
Proof. destruct r; simpl; [intros ->%bool_decide_eq_true; done|done]. Qed.

(** Closes [e = Ok v] for closed [e] and [v] by evaluation. *)
Ltac by_eval := apply is_ok_eq_true; vm_compute; reflexivity.

(** ** The assembled record *)

Lemma clean_opt_value v : clean (opt_value v) = field v.
Proof. by destruct v. Qed.

Lemma record_of_dom a b c d e f g h i j k l m n o p q s :
  dom (record_of a b c d e f g h i j k l m n o p q s) = label_keys.
Proof.
  unfold record_of, label_keys.
  rewrite dom_list_to_map_L. reflexivity.
Qed.

Lemma record_of_no_None a b c d e f g h i j k l m n o p q s key v :
  record_of a b c d e f g h i j k l m n o p q s !! key = Some v -> v <> VNone.
Proof.
  unfold record_of. intros H%elem_of_list_to_map_2.
  repeat (apply elem_of_cons in H as [[= _ ->]|H]; [by unfold field|]).
  by apply elem_of_nil in H.
Qed.

Lemma clean_record a a0 a1 a2 a3 a4 a5 a6 a7 a8 a9 a10 a11 a12 a13 a14 a15 a16 :
  clean <$> (list_to_map
     [("name", opt_value a); ("ingredients", opt_value a0);
      ("netContent", opt_value a1); ("specification", opt_value a2);
      ("producer", opt_value a3); ("address", opt_value a4);
      ("contactInfo", opt_value a5); ("productionDate", opt_value a6);
      ("shelfLife", opt_value a7); ("storageConditions", opt_value a8);
      ("foodProductionLicenseNumber", opt_value a9);
      ("productStandardCode", opt_value a10);
      ("qualityGrade", opt_value a11); ("allergens", opt_value a12);
      ("nutrition", VDict a13); ("warning", opt_value a14);
      ("irradiated", opt_value a15);
      ("commodityBarcode", opt_value a16)] : gmap string value)
  = record_of a a0 a1 a2 a3 a4 a5 a6 a7 a8 a9 a10 a11 a12 a13 a14 a15 a16.
Proof.
  unfold record_of. rewrite <- list_to_map_fmap.
  cbn [fmap list_fmap prod_map fst snd].
  rewrite !clean_opt_value. reflexivity.
Qed.

(** When no extractor raises, the label is the record of their results. *)
Lemma parse_food_label_Ok text_lines a a0 a1 a2 a3 a4 a5 a6 a7 a8 a9 a10 a11
    a12 a13 a14 a15 a16 :
  let full_text := join [LF] text_lines in
  extract_food_name text_lines full_text = Ok a ->
  extract_ingredients text_lines full_text = Ok a0 ->
  extract_net_content full_text = Ok a1 ->
  extract_specification full_text = Ok a2 ->
  extract_producer text_lines full_text = Ok a3 ->
  extract_address text_lines full_text = Ok a4 ->
  extract_contact_info full_text = Ok a5 ->
  extract_production_date full_text = Ok a6 ->
  extract_shelf_life full_text = Ok a7 ->
  extract_storage_conditions text_lines full_text = Ok a8 ->
  extract_license_number full_text = Ok a9 ->
  extract_standard_code full_text = Ok a10 ->
  extract_quality_grade full_text = Ok a11 ->
  extract_allergens full_text = Ok a12 ->
  extract_nutrition text_lines full_text = Ok a13 ->
  extract_warning text_lines full_text = Ok a14 ->
  extract_irradiated full_text = Ok a15 ->
  extract_barcode full_text = Ok a16 ->
  parse_food_label text_lines =
  Ok (record_of a a0 a1 a2 a3 a4 a5 a6 a7 a8 a9 a10 a11 a12 a13 a14 a15 a16).
Proof.
  intros full_text. intros.
  unfold parse_food_label. fold full_text.
  repeat match goal with H : _ = Ok _ |- _ => rewrite H; clear H end.
  cbn [mbind res_bind]. by rewrite clean_record.
Qed.

(** C5: on the bread label, parse_food_label returns the name, an
    ingredients value that begins with the three ingredients of the
    labelled line, the net content, the producer, the production date
    and the shelf life that the specification lists. *)
Theorem bread_label_fields :
  exists r rest,
    parse_food_label bread_lines = Ok r /\
    r !! "name" = Some (VStr (u "全麦吐司面包")) /\
    r !! "ingredients" = Some (VStr (u "全麦粉、小麦粉、水" ++ rest)) /\
    r !! "netContent" = Some (VStr (u "400g")) /\
    r !! "producer" = Some (VStr (u "XX烘焙食品有限公司")) /\
    r !! "productionDate" = Some (VStr (u "2025-04-20")) /\
    r !! "shelfLife" = Some (VStr (u "7天")).
Proof.
  eexists. exists (u " 净含量：400g XX烘焙食品有限公司 生产日期：2025-04-20 保质期：7天").
  split; [apply parse_food_label_Ok; vm_compute; reflexivity|].
  repeat split; vm_compute; reflexivity.
Qed.

(** C9: on the empty list of lines parse_food_label raises nothing and
    returns the record of the eighteen keys in which every text field
    is the empty string and nutrition is the empty mapping. *)
Theorem empty_corpus_record :
  exists r,
    parse_food_label [] = Ok r /\
    dom r = label_keys /\
    r !! "nutrition" = Some (VDict ∅) /\
    forall k, k ∈ label_keys -> k <> "nutrition" -> r !! k = Some (VStr []).
Proof.
  eexists. split; [apply parse_food_label_Ok; vm_compute; reflexivity|].
  split; [apply record_of_dom|].
  split; [vm_compute; reflexivity|].
  intros k Hk Hn. unfold label_keys in Hk.
  rewrite elem_of_list_to_set in Hk.
  repeat (apply elem_of_cons in Hk as [->|Hk]; [try (vm_compute; reflexivity); try done|]).
  by apply elem_of_nil in Hk.
Qed.

(** C2 (the code at the failing input): a label whose text holds 见封口
    makes extract_production_date, and with it parse_food_label, raise
    IndexError: the third pattern has no group for [match.group(1)]. *)
Theorem seal_label_raises :
  extract_production_date (join [LF] seal_lines) = Raise IndexError /\
  parse_food_label seal_lines = Raise IndexError.
Proof.
  assert (H : extract_production_date (join [LF] seal_lines) = Raise IndexError)
    by (vm_compute; reflexivity).
  split; [exact H|].
  unfold parse_food_label.
  replace (extract_food_name _ _) with (Ok (Some (u "生产日期见封口")) : res (option str))
    by (vm_compute; reflexivity).
  replace (extract_ingredients _ _) with (Ok None : res (option str))
    by (vm_compute; reflexivity).
  replace (extract_net_content _) with (Ok None : res (option str))
    by (vm_compute; reflexivity).
  replace (extract_specification _) with (Ok None : res (option str))
    by (vm_compute; reflexivity).
  replace (extract_producer _ _) with (Ok None : res (option str))
    by (vm_compute; reflexivity).
  replace (extract_address _ _) with (Ok None : res (option str))
    by (vm_compute; reflexivity).
  replace (extract_contact_info _) with (Ok None : res (option str))
    by (vm_compute; reflexivity).
  rewrite H. reflexivity.
Qed.

(** C3 (the code at the failing input): on the nutrition line the energy
    entry keeps its unit, the protein and fat entries are stored without
    the unit g, and the three percentages are 17%, 17% and 9%. *)
Theorem nutrition_line_panel :
  extract_nutrition [nutrition_line] nutrition_line =
  Ok (list_to_map
        [ ("energy", Some (u "1450kJ")); ("protein", Some (u "10.2"));
          ("fat", Some (u "5.6")); ("energyNRV", Some (u "17%"));
          ("proteinNRV", Some (u "17%")); ("fatNRV", Some (u "9%")) ]).
Proof. by_eval. Qed.

(** C1: whatever the lines are, the record that parse_food_label
    returns has exactly the eighteen keys; each text field holds what
    its extractor found, or the empty string when it found nothing, and
    nutrition holds the mapping of extract_nutrition; no key holds None. *)
Theorem parse_food_label_record (text_lines : list str) (r : gmap string value) :
  parse_food_label text_lines = Ok r ->
  let full_text := join [LF] text_lines in
  dom r = label_keys /\
  (forall key v, r !! key = Some v -> v <> VNone) /\
  exists name ingredients netContent specification producer address
         contactInfo productionDate shelfLife storageConditions
         foodProductionLicenseNumber productStandardCode qualityGrade
         allergens nutrition warning irradiated commodityBarcode,
    extract_food_name text_lines full_text = Ok name /\
    extract_ingredients text_lines full_text = Ok ingredients /\
    extract_net_content full_text = Ok netContent /\
    extract_specification full_text = Ok specification /\
    extract_producer text_lines full_text = Ok producer /\
    extract_address text_lines full_text = Ok address /\
    extract_contact_info full_text = Ok contactInfo /\
    extract_production_date full_text = Ok productionDate /\
    extract_shelf_life full_text = Ok shelfLife /\
    extract_storage_conditions text_lines full_text = Ok storageConditions /\
    extract_license_number full_text = Ok foodProductionLicenseNumber /\
    extract_standard_code full_text = Ok productStandardCode /\
    extract_quality_grade full_text = Ok qualityGrade /\
    extract_allergens full_text = Ok allergens /\
    extract_nutrition text_lines full_text = Ok nutrition /\
    extract_warning text_lines full_text = Ok warning /\
    extract_irradiated full_text = Ok irradiated /\
    extract_barcode full_text = Ok commodityBarcode /\
    r = record_of name ingredients netContent specification producer address
          contactInfo productionDate shelfLife storageConditions
          foodProductionLicenseNumber productStandardCode qualityGrade
          allergens nutrition warning irradiated commodityBarcode.
Proof.
  intros H full_text. unfold parse_food_label in H. fold full_text in H.
  do 18 bind_ok H.
  apply Ok_inj in H. subst r. rewrite clean_record.
  split; [apply record_of_dom|].
  split; [apply record_of_no_None|].
  do 18 eexists. repeat (split; [eassumption|]). reflexivity.
Qed.

Lemma parse_food_label_record_witness :
  parse_food_label [] = Ok (record_of None None None None None None None None
                              None None None None None None ∅ None None None) /\
  dom (record_of None None None None None None None None None None None None
         None None ∅ None None None) = label_keys.
Proof.
  assert (H : parse_food_label [] =
              Ok (record_of None None None None None None None None None None
                    None None None None ∅ None None None))
    by (apply parse_food_label_Ok; vm_compute; reflexivity).
  split; [exact H|].
  exact (proj1 (parse_food_label_record [] _ H)).
Defined.

(** ** The line corpus *)

Lemma keep_survives r : keep r = true <-> survives r.
Proof.
  unfold keep, survives, threshold.
  rewrite andb_true_iff, negb_true_iff, bool_decide_eq_false. reflexivity.
Qed.

Lemma text_loop_filter page acc :
  text_loop page acc = acc ++ ((fun r => strip (r_text r)) <$> filter survives page).
Proof.
  revert acc. induction page as [|r page IH]; intros acc; simpl.
  - by rewrite app_nil_r.
  - rewrite IH, filter_cons. destruct (keep r) eqn:K.
    + apply keep_survives in K. rewrite decide_True by done.
      by rewrite fmap_cons, <- app_assoc.
    + rewrite decide_False; [done|]. rewrite <- keep_survives. congruence.
Qed.

(** The label assembled from a list of lines is the record of the
    extractors run on these lines and on their join by line feeds. *)
Lemma parse_food_label_extracted text_lines r :
  parse_food_label text_lines = Ok r ->
  extracted text_lines (join [10%N] text_lines) r.
Proof.
  intros H. unfold parse_food_label in H.
  change (join [LF] text_lines) with (join [10%N] text_lines) in H.
  set (full_text := join [10%N] text_lines) in *.
  do 18 bind_ok H.
  apply Ok_inj in H. subst r. rewrite clean_record.
  do 18 eexists. repeat (split; [eassumption|]). reflexivity.
Qed.

(** The label of the sample lines. *)
Lemma sample_lines_label :
  exists r, parse_food_label sample_lines = Ok r /\
    r !! "specification" = Some (VStr (u "500g")) /\
    r !! "shelfLife" = Some (VStr []) /\
    r !! "productionDate" = Some (VStr (u "2025-04-20")).
Proof.
  eexists. split; [apply parse_food_label_Ok; vm_compute; reflexivity|].
  split; [|split]; vm_compute; reflexivity.
Qed.

Lemma ocr_sample_lines : extract_text_lines ocr_sample = sample_lines.
Proof. vm_compute; reflexivity. Qed.

(** C8: the lines built by extract_text_lines are the trimmed texts of
    exactly the regions whose confidence is strictly greater than 0.1
    and whose trimmed text is not empty, in the order of detection; a
    region whose confidence is the float 0.1 itself is dropped; and the
    full text on which parse_food_label runs its extractors is these
    lines joined by the line feed (code point 10).  On the sample of
    four regions the specification region is trimmed, the region at the
    threshold and the blank region are dropped, the region at 0.11 is
    kept, and the specification found in the full text stops at the
    line feed. *)
Theorem extract_text_lines_corpus (result : ocr_result) :
  let lines := (fun r => strip (r_text r)) <$> filter survives (regions_of result) in
  extract_text_lines result = lines /\
  (forall r, parse_food_label (extract_text_lines result) = Ok r ->
     extracted lines (join [10%N] lines) r) /\
  (forall t, ~ survives {| r_text := t; r_confidence := threshold |}) /\
  (forall l, l ∈ extract_text_lines result ->
     exists r, r ∈ regions_of result /\ survives r /\ l = strip (r_text r)) /\
  extract_text_lines ocr_sample = sample_lines /\
  sample_lines = [u "规格：500g"; u "生产日期：2025-04-20"] /\
  join [10%N] (extract_text_lines ocr_sample) =
    u "规格：500g" ++ 10%N :: u "生产日期：2025-04-20" /\
  exists r, parse_food_label (extract_text_lines ocr_sample) = Ok r /\
    r !! "specification" = Some (VStr (u "500g")) /\
    r !! "shelfLife" = Some (VStr []) /\
    r !! "productionDate" = Some (VStr (u "2025-04-20")).
Proof.
  intros lines.
  assert (E : extract_text_lines result = lines).
  { unfold lines. destruct result as [[|[page|] rest]|]; try reflexivity.
    simpl. by rewrite text_loop_filter. }
  split; [exact E|]. split.
  { intros r H. rewrite E in H. by apply parse_food_label_extracted. }
  split.
  { intros t [H _]. vm_compute in H. discriminate. }
  split.
  { rewrite E. unfold lines. intros l (r & -> & Hr)%list_elem_of_fmap.
    apply list_elem_of_filter in Hr as [Hs Hin]. eauto. }
  split; [exact ocr_sample_lines|]. split; [reflexivity|].
  split; [vm_compute; reflexivity|].
  rewrite ocr_sample_lines. exact sample_lines_label.
Qed.

Lemma extract_text_lines_corpus_witness :
  exists r,
    parse_food_label (extract_text_lines ocr_sample) = Ok r /\
    extracted sample_lines (join [10%N] sample_lines) r.
Proof.
  assert (E : (fun r => strip (r_text r)) <$> filter survives (regions_of ocr_sample)
              = sample_lines)
    by (vm_compute; reflexivity).
  pose proof (proj1 (proj2 (extract_text_lines_corpus ocr_sample))) as H.
  cbv zeta in H. rewrite E, ocr_sample_lines in H.
  destruct sample_lines_label as (r & Hr & _).
  exists r. rewrite ocr_sample_lines. split; [exact Hr|]. apply H, Hr.
Defined.

(** ** The matcher *)

Lemma span_le_length p hi s : span p hi s ≤ length s.
Proof.
  revert hi. induction s as [|c s IH]; intros hi; simpl; [lia|].
  destruct hi as [[|h]|]; simpl; try lia; destruct (p c); simpl;
    try lia; specialize (IH (pred <$> Some (S h))) || specialize (IH None);
    simpl in IH; lia.
Qed.

Lemma span_le_hi p h s : span p (Some h) s ≤ h.
Proof.
  revert h. induction s as [|c s IH]; intros h; simpl; [lia|].
  destruct h as [|h]; [lia|]. destruct (p c); [|lia].
  simpl. specialize (IH h). lia.
Qed.

Lemma span_Forall p hi s n :
  n ≤ span p hi s -> Forall (fun c => p c = true) (take n s).
Proof.
  revert hi n. induction s as [|c s IH]; intros hi n Hn.
  - by rewrite take_nil.
  - destruct n as [|n]; [constructor|]. simpl in *.
    destruct hi as [[|h]|]; simpl in Hn; try lia;
      destruct (p c) eqn:Hc; try lia;
      (constructor; [done|]); eapply IH; apply le_S_n, Hn.
Qed.

(** A run of [n] characters of the class, where [n] is within the bound. *)
Lemma span_ge p hi w s :
  Forall (fun c => p c = true) w ->
  (forall h, hi = Some h -> length w ≤ h) ->
  length w ≤ span p hi (w ++ s).
Proof.
  revert hi. induction w as [|c w IH]; intros hi Hw Hh; simpl; [lia|].
  apply Forall_cons in Hw as [Hc Hw].
  destruct hi as [[|h]|]; simpl.
  - specialize (Hh 0 eq_refl). simpl in Hh. lia.
  - rewrite Hc. apply le_n_S, (IH (Some h)); [done|].
    intros h' [= <-]. specialize (Hh (S h) eq_refl). simpl in Hh. lia.
  - rewrite Hc. apply le_n_S, (IH None); [done|]. intros h' [=].
Qed.

(** The run stops at a character outside the class. *)
Lemma span_stop p w s :
  Forall (fun c => p c = true) w ->
  match s with [] => True | c :: _ => p c = false end ->
  span p None (w ++ s) = length w.
Proof.
  intros Hw Hs. induction Hw as [|c w Hc Hw IH]; simpl.
  - destruct s as [|c s]; [done|]. simpl. by rewrite Hs.
  - rewrite Hc. simpl. by rewrite IH.
Qed.

Lemma in_mre_Cat r1 r2 s g x :
  In x (mre (Cat r1 r2) s g) <->
  exists g1 s1, In (g1, s1) (mre r1 s g) /\ In x (mre r2 s1 g1).
Proof.
  simpl. rewrite in_flat_map. split.
  - intros ([g1 s1] & H1 & H2). eauto.
  - intros (g1 & s1 & H1 & H2). exists (g1, s1). eauto.
Qed.

Lemma in_mre_Cls p s g x :
  In x (mre (Cls p) s g) <-> exists c, s = c :: snd x /\ p c = true /\ fst x = g.
Proof.
  simpl. destruct s as [|c s]; [split; [done|intros (? & [=] & _)]|].
  destruct (p c) eqn:Hc; simpl.
  - split.
    + intros [<-|[]]. eauto.
    + intros (c' & [= <- ->] & _ & <-). left. by destruct x.
  - split; [done|]. intros (c' & [= <- _] & ? & _). congruence.
Qed.

Lemma in_mre_Rep gr lo hi p s g x :
  In x (mre (Rep gr lo hi p) s g) <->
  exists n, x = (g, drop n s) /\ lo ≤ n ≤ span p hi s.
Proof.
  simpl. rewrite in_map_iff. unfold rep_counts.
  destruct (Nat.ltb_spec (span p hi s) lo) as [Hlt|Hge].
  - split; [intros (n & _ & [])|intros (n & _ & ?); lia].
  - assert (Hseq : forall n, In n (if gr then rev (seq lo (S (span p hi s) - lo))
                                    else seq lo (S (span p hi s) - lo))
                          <-> lo ≤ n ≤ span p hi s).
    { intros n. destruct gr; rewrite <- ?in_rev, in_seq; lia. }
    split.
    + intros (n & <- & Hn%Hseq). eauto.
    + intros (n & -> & Hn%Hseq). eauto.
Qed.

Lemma in_mre_Grp k r s g x :
  In x (mre (Grp k r) s g) <->
  exists g1 s1, In (g1, s1) (mre r s g) /\
                x = ((k, take (length s - length s1) s) :: g1, s1).
Proof.
  simpl. rewrite in_map_iff. split.
  - intros ([g1 s1] & <- & H). eauto.
  - intros (g1 & s1 & H & ->). exists (g1, s1). eauto.
Qed.

Lemma in_mre_lit w s g x :
  In x (mre (lit w) s g) <-> s = w ++ snd x /\ fst x = g.
Proof.
  revert s g. induction w as [|c w IH]; intros s g.
  - simpl. split; [intros [<-|[]]; done|]. intros [-> <-]. left. by destruct x.
  - change (lit (c :: w)) with (Cat (Cls (chr c)) (lit w)).
    rewrite in_mre_Cat. split.
    + intros (g1 & s1 & (c' & -> & Hc & Hg)%in_mre_Cls & [-> ->]%IH).
      simpl in *. unfold chr in Hc. apply N.eqb_eq in Hc. by subst.
    + intros [-> <-]. exists (fst x), (w ++ snd x). split.
      * apply in_mre_Cls. exists c. simpl. unfold chr. by rewrite N.eqb_refl.
      * by apply IH.
Qed.

(** What a candidate leaves is a suffix of the text. *)
Lemma mre_suffix r s g g' s' :
  In (g', s') (mre r s g) -> exists w, s = w ++ s'.
Proof.
  revert s g g' s'. induction r as [|p|r1 IH1 r2 IH2|r1 IH1 r2 IH2|gr lo hi p|k r IH|];
    intros s g g' s' H.
  - destruct H as [[= _ <-]|[]]. by exists [].
  - apply in_mre_Cls in H as (c & -> & _). by exists [c].
  - apply in_mre_Cat in H as (g1 & s1 & [w1 ->]%IH1 & [w2 ->]%IH2).
    exists (w1 ++ w2). by rewrite app_assoc.
  - simpl in H. apply in_app_iff in H as [H|H]; eauto.
  - apply in_mre_Rep in H as (n & [= _ ->] & _). exists (take n s).
    by rewrite take_drop.
  - apply in_mre_Grp in H as (g1 & s1 & H & [= _ ->]). eauto.
  - simpl in H. destruct s as [|c [|c' s]]; simpl in H.
    + destruct H as [[= _ <-]|[]]. by exists [].
    + destruct (c =? LF)%N; [|done]. destruct H as [[= _ <-]|[]]. by exists [].
    + done.
Qed.

(** The first candidate of a sequence, from the first candidates of its parts. *)
Lemma head_mre_Cat r1 r2 s g g1 s1 x :
  head (mre r1 s g) = Some (g1, s1) ->
  head (mre r2 s1 g1) = Some x ->
  head (mre (Cat r1 r2) s g) = Some x.
Proof.
  simpl. destruct (mre r1 s g) as [|[g1' s1'] t1]; [done|].
  intros [= -> ->]. simpl.
  destruct (mre r2 s1 g1) as [|y t2]; [done|]. by intros [= ->].
Qed.

Lemma head_mre_Rep_greedy lo hi p s g :
  lo ≤ span p hi s ->
  head (mre (Rep true lo hi p) s g) = Some (g, drop (span p hi s) s).
Proof.
  intros Hlo. simpl. unfold rep_counts.
  destruct (Nat.ltb_spec (span p hi s) lo); [lia|].
  replace (S (span p hi s) - lo) with (S (span p hi s - lo)) by lia.
  rewrite seq_S, rev_app_distr. simpl. do 3 f_equal. lia.
Qed.

Lemma head_mre_Grp k r s g g1 s1 :
  head (mre r s g) = Some (g1, s1) ->
  head (mre (Grp k r) s g) = Some ((k, take (length s - length s1) s) :: g1, s1).
Proof. simpl. destruct (mre r s g) as [|[??] ?]; [done|]. by intros [= -> ->]. Qed.

Lemma mre_lit_app w s g : mre (lit w) (w ++ s) g = [(g, s)].
Proof.
  induction w as [|c w IH]; [done|].
  simpl. unfold chr at 1. rewrite N.eqb_refl. simpl.
  change (mre (lit w) (w ++ s) g ++ [] = [(g, s)]). by rewrite IH.
Qed.

(** ** [re.search] *)

Lemma search_from_head r i s g s' :
  head (mre r s []) = Some (g, s') ->
  search_from r i s = Some (mk_match r i s g s').
Proof.
  destruct s; simpl; destruct (mre r _ []) as [|[g0 s0] t]; try done;
    by intros [= -> ->].
Qed.

Lemma search_from_skip r i pre s :
  (forall j, j < length pre -> mre r (drop j (pre ++ s)) [] = []) ->
  search_from r i (pre ++ s) = search_from r (i + length pre) s.
Proof.
  revert i. induction pre as [|c pre IH]; intros i H; simpl.
  - f_equal. lia.
  - pose proof (H 0 ltac:(simpl; lia)) as H0. simpl in H0. rewrite H0.
    rewrite IH; [f_equal; lia|].
    intros j Hj. apply (H (S j)). simpl. lia.
Qed.

Lemma search_from_Some r i s m :
  search_from r i s = Some m ->
  exists pre rest g s',
    s = pre ++ rest /\ head (mre r rest []) = Some (g, s') /\
    (forall j, j < length pre -> mre r (drop j s) [] = []) /\
    m = mk_match r (i + length pre) rest g s'.
Proof.
  revert i. induction s as [|c s IH]; intros i; simpl.
  - destruct (mre r [] []) as [|[g s'] t] eqn:E; [done|].
    intros [= <-]. exists [], [], g, s'. rewrite E. simpl.
    repeat split; [lia|]. unfold mk_match. f_equal. lia.
  - destruct (mre r (c :: s) []) as [|[g s'] t] eqn:E.
    + intros (pre & rest & g & s' & -> & Hh & Hpre & ->)%IH.
      exists (c :: pre), rest, g, s'. repeat split; [done| |].
      * intros [|j] Hj; simpl; [done|]. apply Hpre. simpl in Hj. lia.
      * unfold mk_match. f_equal. simpl. lia.
    + intros [= <-]. exists [], (c :: s), g, s'. rewrite E. simpl.
      repeat split; [lia|]. unfold mk_match. f_equal. lia.
Qed.

Lemma search_from_None r i s :
  search_from r i s = None ->
  forall j, j ≤ length s -> mre r (drop j s) [] = [].
Proof.
  revert i. induction s as [|c s IH]; intros i; simpl.
  - destruct (mre r [] []) as [|[g s'] t] eqn:E; [|done].
    intros _ j Hj. by rewrite drop_nil.
  - destruct (mre r (c :: s) []) as [|[g s'] t] eqn:E; [|done].
    intros H [|j] Hj; simpl; [done|]. eapply IH; [done|lia].
Qed.

Lemma search_from_is_Some r i s j :
  j ≤ length s -> mre r (drop j s) [] <> [] -> is_Some (search_from r i s).
Proof.
  intros Hj Hm. destruct (search_from r i s) eqn:E; [done|].
  destruct Hm. by eapply search_from_None.
Qed.

Lemma search_from_shift r i s :
  search_from r i s = shift_match i <$> search_from r 0 s.
Proof.
  revert i. induction s as [|c s IH]; intros i; simpl.
  - destruct (mre r [] []) as [|[g s'] t]; [done|]. simpl.
    unfold shift_match. simpl. do 2 f_equal. lia.
  - destruct (mre r (c :: s) []) as [|[g s'] t].
    + rewrite (IH (S i)), (IH 1). destruct (search_from r 0 s); [|done].
      simpl. unfold shift_match. simpl. do 2 f_equal. lia.
    + simpl. unfold shift_match. simpl. do 2 f_equal. lia.
Qed.

Lemma group_shift i m k : group (shift_match i m) k = group m k.
Proof. by destruct k. Qed.

(** The text of a match is what lies between its start and the rest. *)
Lemma search_Some_text r s m :
  search r s = Some m ->
  exists pre post,
    s = pre ++ m_text m ++ post /\ m_start m = length pre /\
    m_ngroups m = ngroups r /\
    In (m_caps m, post) (mre r (m_text m ++ post) []) /\
    forall j, j < length pre -> mre r (drop j s) [] = [].
Proof.
  intros (pre & rest & g & s' & -> & Hh & Hpre & ->)%search_from_Some.
  assert (Hin : In (g, s') (mre r rest [])).
  { destruct (mre r rest []) as [|x t]; [done|]. injection Hh as ->. by left. }
  destruct (mre_suffix _ _ _ _ _ Hin) as [w ->].
  exists pre, s'. simpl.
  replace (take _ _) with w.
  - done.
  - rewrite length_app. replace (length w + length s' - length s') with (length w) by lia.
    by rewrite take_app_length.
Qed.

(** ** [calculate_nrv] *)

Lemma nrv_step_entry n key ref :
  nrv_step n (key, ref) =
  r ← nrv_entry (n !! key) ref;
  Ok (match r with
      | Some pct => <[nrv_key key := Some pct]> n
      | None => n
      end).
Proof.
  unfold nrv_step, nrv_entry, nrv_key.
  destruct (n !! key) as [[entry|]|]; try done.
  destruct (negb _); [|done].
  destruct (search _ entry) as [m|]; [|done].
  destruct (group m 1) as [txt|]; [|done]. cbn [mbind res_bind].
  destruct (match txt with Some t => py_float t | None => Raise ValueError end)
    as [value|]; [|done]. cbn [mbind res_bind].
  destruct (nrv_convert entry value) as [value'|]; [|done]. cbn [mbind res_bind].
  by destruct (nrv_percent value' ref).
Qed.

Lemma string_length_append (a b : string) :
  String.length (a +:+ b) = String.length a + String.length b.
Proof. induction a as [|c a IH]; simpl; [done|]. by rewrite IH. Qed.

Lemma nrv_key_inj a b : nrv_key a = nrv_key b -> a = b.
Proof.
  unfold nrv_key. revert b. induction a as [|c a IH]; intros [|d b]; simpl.
  - done.
  - intros H. apply (f_equal String.length) in H. simpl in H.
    rewrite string_length_append in H. simpl in H. lia.
  - intros H. apply (f_equal String.length) in H. simpl in H.
    rewrite string_length_append in H. simpl in H. lia.
  - intros [= -> H]. f_equal. by apply IH.
Qed.

Lemma nrv_loop_spec krs cur n' :
  NoDup krs.*1 ->
  (forall a b, a ∈ krs.*1 -> b ∈ krs.*1 -> nrv_key a <> b) ->
  nrv_loop krs cur = Ok n' ->
  (forall key ref, (key, ref) ∈ krs ->
     exists r, nrv_entry (cur !! key) ref = Ok r /\
       n' !! nrv_key key = match r with
                           | Some pct => Some (Some pct)
                           | None => cur !! nrv_key key
                           end) /\
  (forall k, k ∉ nrv_key <$> krs.*1 -> n' !! k = cur !! k).
Proof.
  revert cur. induction krs as [|[key0 ref0] krs IH]; intros cur Hnd Hx H.
  - simpl in H. apply Ok_inj in H as <-. split; [|done].
    intros key ref Hin. by apply elem_of_nil in Hin.
  - cbn [nrv_loop] in H. bind_ok H. rewrite nrv_step_entry in E. bind_ok E.
    apply Ok_inj in E as <-.
    rewrite fmap_cons in Hnd. apply NoDup_cons in Hnd as [Hfresh Hnd].
    assert (Hx' : forall a b, a ∈ krs.*1 -> b ∈ krs.*1 -> nrv_key a <> b).
    { intros a b Ha Hb. apply Hx; rewrite fmap_cons; by apply elem_of_cons; right. }
    destruct (IH _ Hnd Hx' H) as [IH1 IH2].
    assert (Hself : nrv_key key0 ∉ nrv_key <$> krs.*1).
    { intros (k & Hk%nrv_key_inj & Hin)%list_elem_of_fmap. by subst. }
    assert (Hstep : forall k, k <> nrv_key key0 ->
              match a0 with
              | Some pct => <[nrv_key key0 := Some pct]> cur
              | None => cur
              end !! k = cur !! k).
    { intros k Hk. destruct a0; [by rewrite lookup_insert_ne|done]. }
    split.
    + intros key ref [[= -> ->]|Hin]%elem_of_cons.
      * exists a0. split; [done|]. rewrite IH2 by done.
        destruct a0; [by rewrite lookup_insert_eq|done].
      * destruct (IH1 _ _ Hin) as (r & Hr & Hl).
        assert (Hk : key ∈ krs.*1).
        { apply list_elem_of_fmap. by exists (key, ref). }
        rewrite Hstep in Hr.
        2:{ intros Heq. apply (Hx key0 key); [| |done]; rewrite fmap_cons;
              apply elem_of_cons; [by left|by right]. }
        rewrite Hstep in Hl.
        2:{ intros Heq%nrv_key_inj. subst. done. }
        eauto.
    + intros k Hk. rewrite !fmap_cons in Hk. apply not_elem_of_cons in Hk as [Hk1 Hk2].
      rewrite IH2 by done. by apply Hstep.
Qed.

Lemma nutrient_keys_NoDup : NoDup nutrient_keys.
Proof. apply (bool_decide_unpack _). by vm_compute. Qed.

Lemma nrv_key_not_nutrient a b :
  a ∈ nutrient_keys -> b ∈ nutrient_keys -> nrv_key a <> b.
Proof.
  unfold nutrient_keys, nrv_values. simpl. intros Ha Hb.
  repeat (apply elem_of_cons in Ha as [->|Ha]);
    try (by apply elem_of_nil in Ha);
    repeat (apply elem_of_cons in Hb as [->|Hb]);
    try (by apply elem_of_nil in Hb); discriminate.
Qed.

(** The percentage slot of every nutrient, and every other key, after
    [calculate_nrv], from the panel it was given. *)
Lemma calculate_nrv_spec n n' :
  calculate_nrv n = Ok n' ->
  (forall key ref, (key, ref) ∈ nrv_values ->
     exists r, nrv_entry (n !! key) ref = Ok r /\
       n' !! nrv_key key = match r with
                           | Some pct => Some (Some pct)
                           | None => n !! nrv_key key
                           end) /\
  (forall k, k ∉ nrv_keys -> n' !! k = n !! k).
Proof.
  apply nrv_loop_spec; [apply nutrient_keys_NoDup|apply nrv_key_not_nutrient].
Qed.

Lemma nrv_entry_Some e ref pct :
  nrv_entry e ref = Ok (Some pct) ->
  exists entry, e = Some (Some entry) /\ entry <> [] /\
                is_Some (search (p_re nrv_number_re) entry).
Proof.
  unfold nrv_entry. destruct e as [[entry|]|]; try done.
  destruct (bool_decide (entry = [])) eqn:He; [done|].
  apply bool_decide_eq_false in He. simpl.
  destruct (search _ entry) as [m|] eqn:Hs; [|done].
  intros _. eauto.
Qed.

(** C10 (counterexample): a key that is already in the panel can change:
    the stale percentage of [stale_panel] is overwritten. *)
Lemma existing_percentage_overwritten :
  ~ (forall (n n' : panel) (k : string),
       calculate_nrv n = Ok n' -> is_Some (n !! k) -> n' !! k = n !! k).
Proof.
  intros H.
  assert (E : calculate_nrv stale_panel = Ok stale_panel_after) by by_eval.
  specialize (H _ _ "energyNRV" E).
  vm_compute in H. discriminate H. eauto.
Qed.

(** C10 (amended): calculate_nrv removes no key and leaves every key
    other than the six percentage keys as it was; a key gets a new value
    only if it is the percentage key of a nutrient whose entry in the
    input is a non-empty text in which a number is found. *)
Theorem calculate_nrv_frame (n n' : panel) :
  calculate_nrv n = Ok n' ->
  (forall k, k ∉ nrv_keys -> n' !! k = n !! k) /\
  (forall key, key ∈ nutrient_keys -> n' !! key = n !! key) /\
  dom n ⊆ dom n' /\
  (forall k, n' !! k <> n !! k ->
     exists key ref entry,
       (key, ref) ∈ nrv_values /\ k = key +:+ "NRV" /\
       n !! key = Some (Some entry) /\ entry <> [] /\
       is_Some (search (p_re nrv_number_re) entry)).
Proof.
  intros H. destruct (calculate_nrv_spec _ _ H) as [Hslot Hother].
  assert (Hslot' : forall k, k ∈ nrv_keys ->
            exists key ref r, (key, ref) ∈ nrv_values /\ k = nrv_key key /\
              nrv_entry (n !! key) ref = Ok r /\
              n' !! k = match r with
                        | Some pct => Some (Some pct)
                        | None => n !! k
                        end).
  { intros k (key & -> & ([key' ref] & -> & Hin)%list_elem_of_fmap)%list_elem_of_fmap.
    destruct (Hslot _ _ Hin) as (r & Hr & Hl). simpl. eauto 10. }
  split; [exact Hother|]. split; [|split].
  - intros key Hkey. apply Hother.
    intros (a & -> & Ha)%list_elem_of_fmap.
    by apply (nrv_key_not_nutrient a (nrv_key a)).
  - intros k [v Hv]%elem_of_dom. apply elem_of_dom.
    destruct (decide (k ∈ nrv_keys)) as [Hk|Hk].
    + destruct (Hslot' _ Hk) as (key & ref & r & _ & _ & _ & ->).
      destruct r; [done|]. by rewrite Hv.
    + rewrite Hother by done. by rewrite Hv.
  - intros k Hne. destruct (decide (k ∈ nrv_keys)) as [Hk|Hk].
    + destruct (Hslot' _ Hk) as (key & ref & r & Hin & -> & Hr & Hl).
      destruct r as [pct|]; [|done].
      apply nrv_entry_Some in Hr as (entry & He & Hnil & Hs).
      exists key, ref, entry. done.
    + destruct Hne. by apply Hother.
Qed.

Lemma calculate_nrv_frame_witness :
  calculate_nrv stale_panel = Ok stale_panel_after /\
  dom stale_panel ⊆ dom stale_panel_after.
Proof.
  assert (E : calculate_nrv stale_panel = Ok stale_panel_after) by by_eval.
  split; [exact E|].
  exact (proj1 (proj2 (proj2 (calculate_nrv_frame _ _ E)))).
Defined.

(** ** Numbers in entries *)

Lemma span_max p s :
  match drop (span p None s) s with [] => True | c :: _ => p c = false end.
Proof.
  induction s as [|c s IH]; simpl; [done|].
  destruct (p c) eqn:E; simpl; [exact IH|exact E].
Qed.

Lemma take_app_sub {A} (w rest : list A) :
  take (length (w ++ rest) - length rest) (w ++ rest) = w.
Proof.
  rewrite length_app. replace (length w + length rest - length rest)
    with (length w) by lia.
  by rewrite take_app_length.
Qed.

Lemma take_digits_app ip rest :
  Forall (fun c => is_decimal c = true) ip ->
  match rest with [] => True | c :: _ => is_decimal c = false end ->
  take_digits (ip ++ rest) = (ip, rest).
Proof.
  intros Hip Hrest. induction Hip as [|c ip Hc Hip IH]; simpl.
  - destruct rest as [|c rest]; [done|]. simpl. by rewrite Hrest.
  - by rewrite Hc, IH.
Qed.

Lemma py_float_number num :
  number_text num -> exists value, py_float num = Ok value.
Proof.
  intros (ip & fp & Hne & Hip & Hfp & [->| ->]); unfold py_float.
  - rewrite <- (app_nil_r ip), take_digits_app by done.
    destruct ip; [done|]. eauto.
  - rewrite take_digits_app by done. destruct ip as [|c ip]; [done|].
    change (46 =? 46)%N with true. cbv iota.
    rewrite <- (app_nil_r fp), take_digits_app by done. eauto.
Qed.










(** C4 (the code at the failing input): 17.4 g of protein are 29% of
    the reference of 60 g, truncated, and calculate_nrv stores 28%: the
    quotient and its product by 100 are rounded to binary64, which
    gives 28.999999999999996, and int() truncates this.  The same holds
    for the entry that extract_nutrition builds from a table line.
    Likewise 200 kcal become 836.8000000000001 kJ, not 836.8. *)
Theorem protein_percentage_below_truncation :
  calculate_nrv protein_panel = Ok protein_panel_after /\
  protein_panel_after !! "proteinNRV" = Some (Some (u "28%")) /\
  spec_percent 174 1 60 = 29%Z /\
  F64.fmul (F64.fdiv (F64.of_decimal 174 1) (F64.of_Z 60)) (F64.of_Z 100)
    = F64.of_decimal 28999999999999996 15 /\
  py_int (F64.of_decimal 28999999999999996 15) = Ok 28%Z /\
  extract_nutrition [u "蛋白质 17.4克"] (u "蛋白质 17.4克")
    = Ok (<["proteinNRV" := Some (u "28%")]> {[ "protein" := Some (u "17.4克") ]}) /\
  F64.fmul (F64.of_decimal 200 0) (F64.of_decimal 4184 3)
    = F64.of_decimal 8368000000000001 13 /\
  F64.fmul (F64.of_decimal 200 0) (F64.of_decimal 4184 3)
    <> F64.of_decimal 8368 1.
Proof.
  split; [by_eval|]. split; [vm_compute; reflexivity|].
  split; [vm_compute; reflexivity|]. split; [vm_compute; reflexivity|].
  split; [vm_compute; reflexivity|]. split; [by_eval|].
  split; [vm_compute; reflexivity|].
  intros H. vm_compute in H. discriminate.
Qed.

(** ** Patterns that recognise a shape *)

Section Shape.
Variable r : re.
Variable L : str -> Prop.
Hypothesis r_sound : forall s g' s',
  In (g', s') (mre r s []) -> exists w, s = w ++ s' /\ L w.
Hypothesis r_complete : forall w rest, L w -> mre r (w ++ rest) [] <> [].

Lemma search_leftmost text m :
  search r text = Some m -> leftmost L text (m_text m).
Proof.
  intros (pre & post & Ht & Hs & _ & Hin & Hpre)%search_Some_text.
  destruct (r_sound _ _ _ Hin) as (w & Hw%app_inv_tail & HL). subst w.
  exists pre, post. repeat split; [done..|].
  intros pre' w' post' Ht' HL'.
  destruct (Nat.le_gt_cases (length pre) (length pre')) as [|Hlt]; [done|].
  destruct (r_complete w' post' HL').
  rewrite <- (Hpre _ Hlt), Ht', drop_app_length. done.
Qed.

Lemma search_is_Some text w :
  occurs w text -> L w -> is_Some (search r text).
Proof.
  intros (pre & post & ->) HL.
  apply (search_from_is_Some r 0 _ (length pre)).
  - rewrite length_app. lia.
  - rewrite drop_app_length. by apply r_complete.
Qed.

End Shape.

Lemma in_mre_times n p s g x :
  In x (mre (times n p) s g) <->
  exists w, s = w ++ snd x /\ fst x = g /\ length w = n /\
            Forall (fun c => p c = true) w.
Proof.
  unfold times. rewrite in_mre_Rep. split.
  - intros (k & -> & Hk). pose proof (span_le_hi p n s).
    pose proof (span_le_length p (Some n) s).
    assert (k = n) as -> by lia.
    exists (take n s). simpl. rewrite take_drop, length_take.
    repeat split; [lia|]. apply (span_Forall p (Some n)). lia.
  - intros (w & -> & <- & <- & Hw). exists (length w).
    rewrite drop_app_length. split; [by destruct x|].
    split; [done|]. apply span_ge; [done|]. by intros h [= <-].
Qed.

Lemma in_mre_Eps s g x : In x (mre Eps s g) <-> x = (g, s).
Proof. simpl. split; [by intros [<-|[]]|intros ->; by left]. Qed.

Lemma sc_sound s g' s' :
  In (g', s') (mre (p_re license_sc) s []) -> exists w, s = w ++ s' /\ sc_code w.
Proof.
  unfold license_sc, license_qs; cbn [p_re cat].
  intros (g1 & s1 & [Hs Hg1]%in_mre_lit &
          (g2 & s2 & (c & Hs1 & Hc & Hg2)%in_mre_Cls &
           (g3 & s3 & (ds & Hs2 & Hg3 & Hlen & Hds)%in_mre_times &
            [= _ Hs3]%in_mre_Eps)%in_mre_Cat)%in_mre_Cat)%in_mre_Cat.
  simpl in *. subst. exists ([83; 67] ++ c :: ds)%N. split.
  - by rewrite <- app_assoc.
  - exists c, ds. by repeat split.
Qed.

Lemma sc_complete w rest : sc_code w -> mre (p_re license_sc) (w ++ rest) [] <> [].
Proof.
  intros (c & ds & -> & Hc & Hlen & Hds) Hnil.
  assert (Hin : In ([], rest) (mre (p_re license_sc) ((u "SC" ++ c :: ds) ++ rest) []));
    [|by rewrite Hnil in Hin].
  unfold license_sc, license_qs; cbn [p_re cat].
  apply in_mre_Cat. exists [], (c :: ds ++ rest). split; [by apply in_mre_lit|].
  apply in_mre_Cat. exists [], (ds ++ rest). split.
  { apply in_mre_Cls. by exists c. }
  apply in_mre_Cat. exists [], rest. split; [|by apply in_mre_Eps].
  apply in_mre_times. by exists ds.
Qed.

Lemma qs_sound s g' s' :
  In (g', s') (mre (p_re license_qs) s []) -> exists w, s = w ++ s' /\ qs_code w.
Proof.
  unfold license_sc, license_qs; cbn [p_re cat].
  intros (g1 & s1 & [Hs Hg1]%in_mre_lit &
          (g3 & s3 & (ds & Hs2 & Hg3 & Hlen & Hds)%in_mre_times &
           [= _ Hs3]%in_mre_Eps)%in_mre_Cat)%in_mre_Cat.
  simpl in *. subst. exists ([81; 83] ++ ds)%N. split.
  - by rewrite <- app_assoc.
  - exists ds. by repeat split.
Qed.

Lemma qs_complete w rest : qs_code w -> mre (p_re license_qs) (w ++ rest) [] <> [].
Proof.
  intros (ds & -> & Hlen & Hds) Hnil.
  assert (Hin : In ([], rest) (mre (p_re license_qs) ((u "QS" ++ ds) ++ rest) []));
    [|by rewrite Hnil in Hin].
  unfold license_sc, license_qs; cbn [p_re cat].
  apply in_mre_Cat. exists [], (ds ++ rest). split; [by apply in_mre_lit|].
  apply in_mre_Cat. exists [], rest. split; [|by apply in_mre_Eps].
  apply in_mre_times. by exists ds.
Qed.

Lemma label_sound s g' s' :
  In (g', s') (mre (p_re license_label) s []) ->
  exists pre code,
    s = (u "生产许可证编号" ++ pre) ++ code ++ s' /\ labelled_code code /\
    g' = [(1, code)].
Proof.
  unfold license_label; cbn [p_re cat]. unfold star, plus.
  intros (g1 & s1 & [Hs Hg1]%in_mre_lit &
          (g2 & s2 & (c & Hs1 & Hc & Hg2)%in_mre_Cls &
           (g3 & s3 & (n & [= Hg3 Hs3] & Hn)%in_mre_Rep &
            (g4 & s4 &
              (g5 & s5 &
                (g6 & s6 & [Hs6 Hg6]%in_mre_lit &
                 (g7 & s7 & (k & [= Hg7 Hs7] & Hk)%in_mre_Rep &
                  [= Hg5 Hs5]%in_mre_Eps)%in_mre_Cat)%in_mre_Cat &
                [= Hg4 Hs4])%in_mre_Grp &
              [= Hg' Hs']%in_mre_Eps)%in_mre_Cat)%in_mre_Cat)%in_mre_Cat)%in_mre_Cat.
  simpl in *. subst.
  pose proof (span_le_length digit None s6) as Hlen.
  exists (c :: take n s2), ([83; 67]%N ++ take k s6). split; [|split].
  - rewrite <- !app_assoc. simpl. do 8 f_equal.
    rewrite <- (take_drop n s2) at 1. f_equal. rewrite Hs6. simpl. do 2 f_equal.
    by rewrite take_drop.
  - exists (take k s6). split; [done|]. split.
    + intros E%(f_equal length). rewrite length_take in E. simpl in E. lia.
    + apply (span_Forall digit None). lia.
  - do 2 f_equal. rewrite Hs6. simpl. rewrite length_drop.
    replace (S (S (length s6)) - (length s6 - k)) with (S (S k)) by lia.
    simpl. done.
Qed.

Lemma search_ngroups r s m : search r s = Some m -> m_ngroups m = ngroups r.
Proof. by intros (pre & post & _ & _ & H & _)%search_Some_text. Qed.

(** [extract_license_number], pattern by pattern. *)
Lemma extract_license_number_eq text :
  extract_license_number text =
  Ok match search (p_re license_sc) text with
     | Some m => Some (m_text m)
     | None =>
         match search (p_re license_qs) text with
         | Some m => Some (m_text m)
         | None =>
             match search (p_re license_label) text with
             | Some m => cap_lookup 1 (m_caps m)
             | None => None
             end
         end
     end.
Proof.
  unfold extract_license_number, license_patterns. cbn [first_match].
  destruct (search (p_re license_sc) text) as [m1|]; [done|].
  destruct (search (p_re license_qs) text) as [m2|]; [done|].
  destruct (search (p_re license_label) text) as [m3|] eqn:E3; [|done].
  apply search_ngroups in E3. simpl. unfold group. by rewrite E3.
Qed.

Lemma leftmost_occurs L text w : leftmost L text w -> occurs w text /\ L w.
Proof. intros (pre & post & -> & HL & _). split; [by exists pre, post|done]. Qed.

Lemma head_mre_Cat_inv r1 r2 s g x :
  head (mre (Cat r1 r2) s g) = Some x ->
  exists g1 s1, In (g1, s1) (mre r1 s g) /\ head (mre r2 s1 g1) = Some x.
Proof.
  simpl. induction (mre r1 s g) as [|[g1 s1] l IH]; simpl; [done|].
  destruct (mre r2 s1 g1) as [|y t] eqn:E; simpl.
  - intros H. destruct (IH H) as (g1' & s1' & Hin & Hh). eauto.
  - intros [= ->]. exists g1, s1. rewrite E. split; [by left|done].
Qed.

Lemma mre_Cat_Eps r s g : mre (Cat r Eps) s g = mre r s g.
Proof.
  simpl. induction (mre r s g) as [|[g1 s1] l IH]; simpl; [done|].
  by rewrite IH.
Qed.

Lemma head_mre_Grp_inv k r s g x :
  head (mre (Grp k r) s g) = Some x ->
  exists g1 s1, head (mre r s g) = Some (g1, s1) /\
                x = ((k, take (length s - length s1) s) :: g1, s1).
Proof.
  simpl. destruct (mre r s g) as [|[g1 s1] l]; [done|].
  intros [= <-]. eauto.
Qed.

Lemma head_mre_Rep_greedy_inv lo hi p s g x :
  head (mre (Rep true lo hi p) s g) = Some x ->
  x = (g, drop (span p hi s) s) /\ lo ≤ span p hi s.
Proof.
  intros H. destruct (Nat.le_gt_cases lo (span p hi s)) as [Hle|Hgt].
  - rewrite head_mre_Rep_greedy in H by done. by injection H as <-.
  - assert (Hin : In x (mre (Rep true lo hi p) s g)).
    { destruct (mre (Rep true lo hi p) s g); [done|]. injection H as <-. by left. }
    apply in_mre_Rep in Hin as (n & _ & Hn). lia.
Qed.

Lemma search_Some_head r s m :
  search r s = Some m ->
  exists pre rest g s',
    s = pre ++ rest /\ head (mre r rest []) = Some (g, s') /\
    (forall j, j < length pre -> mre r (drop j s) [] = []) /\
    m = mk_match r (length pre) rest g s'.
Proof. intros H. by apply search_from_Some in H. Qed.

(** The first candidate of the labelled pattern takes every blank after
    the colon and every digit after SC. *)
Lemma label_head s g' s' :
  head (mre (p_re license_label) s []) = Some (g', s') ->
  exists c ws code,
    s = u "生产许可证编号" ++ c :: ws ++ code ++ s' /\
    colon c = true /\ Forall (fun c => is_space c = true) ws /\
    labelled_code code /\ digits_end s' /\ g' = [(1, code)].
Proof.
  unfold license_label; cbn [p_re cat]. unfold star, plus.
  intros (g1 & s1 & [Hs Hg1]%in_mre_lit &
          (g2 & s2 & (c & Hs1 & Hc & Hg2)%in_mre_Cls &
           (g3 & s3 & (n & [= Hg3 Hs3] & Hn)%in_mre_Rep &
            H)%head_mre_Cat_inv)%head_mre_Cat_inv)%head_mre_Cat_inv.
  rewrite mre_Cat_Eps in H.
  apply head_mre_Grp_inv in H as (g4 & s4 & H & [= Hg' Hs']).
  apply head_mre_Cat_inv in H as (g6 & s6 & [Hs6 Hg6]%in_mre_lit & H).
  rewrite mre_Cat_Eps in H.
  apply head_mre_Rep_greedy_inv in H as [[= Hg4 Hs4] Hk].
  simpl in *. subst.
  pose proof (span_le_length digit None s6) as Hlen.
  set (k := span digit None s6) in *.
  exists c, (take n s2), ([83; 67]%N ++ take k s6).
  split; [|split; [done|split; [|split; [|split]]]].
  - rewrite <- !app_assoc. simpl. do 8 f_equal.
    rewrite <- (take_drop n s2) at 1. f_equal. rewrite Hs6. simpl. do 2 f_equal.
    by rewrite take_drop.
  - apply (span_Forall space None). lia.
  - exists (take k s6). split; [done|]. split.
    + intros E%(f_equal length). rewrite length_take in E. simpl in E. lia.
    + apply (span_Forall digit None). lia.
  - apply (span_max digit).
  - do 2 f_equal. rewrite Hs6. simpl. rewrite length_drop.
    replace (S (S (length s6)) - (length s6 - k)) with (S (S k)) by lia.
    simpl. done.
Qed.

(** At a label followed by a colon, blanks, SC and digits taken in
    full, the first candidate of the labelled pattern is the code. *)
Lemma label_complete c ws ds post :
  colon c = true -> Forall (fun c => is_space c = true) ws ->
  ds <> [] -> Forall (fun d => is_decimal d = true) ds -> digits_end post ->
  head (mre (p_re license_label)
          (u "生产许可证编号" ++ c :: ws ++ u "SC" ++ ds ++ post) []) =
  Some ([(1, u "SC" ++ ds)], post).
Proof.
  intros Hc Hws Hne Hds Hpost.
  unfold license_label; cbn [p_re cat].
  eapply head_mre_Cat; [by rewrite mre_lit_app|].
  eapply head_mre_Cat; [by cbn [mre]; rewrite Hc|].
  assert (Hsp : span space None (ws ++ u "SC" ++ ds ++ post) = length ws).
  { apply span_stop; [done|]. vm_compute. reflexivity. }
  eapply head_mre_Cat.
  { unfold star. rewrite head_mre_Rep_greedy by lia.
    rewrite Hsp, drop_app_length. reflexivity. }
  rewrite mre_Cat_Eps.
  assert (Hdg : span digit None (ds ++ post) = length ds).
  { apply span_stop; [done|]. by destruct post. }
  erewrite head_mre_Grp; cycle 1.
  { eapply head_mre_Cat; [by rewrite mre_lit_app|].
    rewrite mre_Cat_Eps. unfold plus. rewrite head_mre_Rep_greedy.
    - rewrite Hdg, drop_app_length. reflexivity.
    - rewrite Hdg. destruct ds; [done|simpl; lia]. }
  apply (f_equal (fun t => Some ([(1, t)], post))).
  exact (take_app_sub (u "SC" ++ ds) post).
Qed.

(** No candidate of the labelled pattern starts where the label does
    not. *)
Lemma label_needs_label s :
  mre (p_re license_label) s [] <> [] ->
  exists post, s = u "生产许可证编号" ++ post.
Proof.
  destruct (mre (p_re license_label) s []) as [|[g' s'] l] eqn:E; [done|].
  intros _. assert (Hin : In (g', s') (mre (p_re license_label) s []))
    by (rewrite E; by left).
  apply label_sound in Hin as (pre & code & -> & _).
  rewrite <- app_assoc. eauto.
Qed.

(** C6 (counterexample): SC followed by thirteen digits, or by twelve,
    is not a license number for the extractor. *)
Lemma sc_13_digits_not_extracted :
  digits 13 (u "1234567890123") /\
  extract_license_number (u "SC1234567890123") = Ok None /\
  digits 12 (u "123456789012") /\
  extract_license_number (u "SC123456789012") = Ok None.
Proof.
  assert (Hd : forall n ds, bool_decide (digits n ds) = true -> digits n ds)
    by (intros n ds; apply bool_decide_eq_true_1).
  split; [apply Hd; vm_compute; reflexivity|].
  split; [by_eval|].
  split; [apply Hd; vm_compute; reflexivity|by_eval].
Qed.

(** C6 (amended): extract_license_number never raises.  The first
    pattern takes SC followed by fourteen characters, one of the class
    written [1|2] and thirteen digits: a text in which SC is followed by
    a 1 or a 2 and thirteen digits yields the leftmost word of that
    shape.  Without such a word, a text in which QS is followed by
    twelve digits yields the leftmost QS with its first twelve digits.
    Without a word of either shape, a text whose first label
    生产许可证编号 is followed by a colon, blanks, SC and at least one
    digit yields SC with all the digits that follow it.  Whatever is
    returned occurs in the text and has one of the two shapes, or is SC
    with all the digits that follow it, after the label, a colon and
    blanks. *)
Theorem license_number_shapes (text : str) :
  (exists r, extract_license_number text = Ok r) /\
  (forall pre c ds post,
     text = pre ++ u "SC" ++ c :: ds ++ post ->
     c = 49%N \/ c = 50%N -> digits 13 ds ->
     exists code, extract_license_number text = Ok (Some code) /\
                  leftmost sc_code text code) /\
  ((forall w, occurs w text -> ~ sc_code w) ->
   forall pre ds post,
     text = pre ++ u "QS" ++ ds ++ post -> digits 12 ds ->
     exists code, extract_license_number text = Ok (Some code) /\
                  leftmost qs_code text code) /\
  ((forall w, occurs w text -> ~ sc_code w) ->
   (forall w, occurs w text -> ~ qs_code w) ->
   forall pre c ws ds post,
     text = pre ++ u "生产许可证编号" ++ c :: ws ++ u "SC" ++ ds ++ post ->
     (forall pre' post', text = pre' ++ u "生产许可证编号" ++ post' ->
                         length pre ≤ length pre') ->
     colon c = true -> Forall (fun c => is_space c = true) ws ->
     ds <> [] -> Forall (fun d => is_decimal d = true) ds ->
     digits_end post ->
     extract_license_number text = Ok (Some (u "SC" ++ ds))) /\
  (forall code,
     extract_license_number text = Ok (Some code) ->
     occurs code text /\
     (sc_code code \/ qs_code code \/
      (labelled_code code /\
       exists pre c ws post,
         text = pre ++ u "生产许可证编号" ++ c :: ws ++ code ++ post /\
         colon c = true /\ Forall (fun c => is_space c = true) ws /\
         digits_end post))).
Proof.
  rewrite extract_license_number_eq.
  split; [eauto|]. split; [|split; [|split]].
  - intros pre c ds post Ht Hc Hds.
    assert (Hcode : sc_code (u "SC" ++ c :: ds)).
    { exists c, ds. repeat split; try apply Hds. by destruct Hc as [->| ->]. }
    assert (Ho : occurs (u "SC" ++ c :: ds) text).
    { exists pre, post. rewrite Ht. by rewrite <- !app_assoc. }
    destruct (search_is_Some _ _ sc_complete _ _ Ho Hcode) as [m Hm].
    rewrite Hm. exists (m_text m). split; [done|].
    by apply (search_leftmost _ _ sc_sound sc_complete).
  - intros Hno pre ds post Ht Hds.
    destruct (search (p_re license_sc) text) as [m|] eqn:E1.
    { apply (search_leftmost _ _ sc_sound sc_complete), leftmost_occurs in E1.
      destruct E1 as [Ho Hs]. by destruct (Hno _ Ho). }
    assert (Hcode : qs_code (u "QS" ++ ds)) by by exists ds.
    assert (Ho : occurs (u "QS" ++ ds) text).
    { exists pre, post. rewrite Ht. by rewrite <- !app_assoc. }
    destruct (search_is_Some _ _ qs_complete _ _ Ho Hcode) as [m Hm].
    rewrite Hm. exists (m_text m). split; [done|].
    by apply (search_leftmost _ _ qs_sound qs_complete).
  - intros Hsc Hqs pre c ws ds post Ht Hfirst Hc Hws Hne Hds Hpost.
    destruct (search (p_re license_sc) text) as [m|] eqn:E1.
    { apply (search_leftmost _ _ sc_sound sc_complete), leftmost_occurs in E1.
      destruct E1 as [Ho Hs]. by destruct (Hsc _ Ho). }
    destruct (search (p_re license_qs) text) as [m|] eqn:E2.
    { apply (search_leftmost _ _ qs_sound qs_complete), leftmost_occurs in E2.
      destruct E2 as [Ho Hs]. by destruct (Hqs _ Ho). }
    unfold search. rewrite Ht at 1. rewrite search_from_skip.
    + erewrite search_from_head by by apply label_complete.
      reflexivity.
    + intros j Hj. rewrite <- Ht.
      destruct (mre (p_re license_label) (drop j text) []) as [|x l] eqn:E;
        [done|].
      destruct (label_needs_label (drop j text)) as [post' Hpost'];
        [by rewrite E|].
      specialize (Hfirst (take j text) post').
      rewrite <- Hpost', take_drop in Hfirst. specialize (Hfirst eq_refl).
      rewrite length_take in Hfirst. lia.
  - intros code Hcode. apply Ok_inj in Hcode.
    destruct (search (p_re license_sc) text) as [m|] eqn:E1.
    { injection Hcode as <-.
      apply (search_leftmost _ _ sc_sound sc_complete), leftmost_occurs in E1.
      destruct E1. auto. }
    destruct (search (p_re license_qs) text) as [m|] eqn:E2.
    { injection Hcode as <-.
      apply (search_leftmost _ _ qs_sound qs_complete), leftmost_occurs in E2.
      destruct E2. auto. }
    destruct (search (p_re license_label) text) as [m|] eqn:E3; [|done].
    apply search_Some_head in E3 as (pre & rest & g & s' & Ht & Hh & _ & ->).
    apply label_head in Hh as (c & ws & code' & Hr & Hc & Hws & Hl & Hend & ->).
    simpl in Hcode. injection Hcode as ->.
    split; [|right; right; split; [done|]].
    + exists (pre ++ u "生产许可证编号" ++ c :: ws), s'.
      rewrite Ht, Hr. by rewrite <- !app_assoc.
    + exists pre, c, ws, s'. rewrite Ht, Hr. done.
Qed.

Lemma license_number_shapes_witness :
  (exists code,
     extract_license_number (u "许可证 SC10435792468013") = Ok (Some code) /\
     leftmost sc_code (u "许可证 SC10435792468013") code) /\
  extract_license_number (u "生产许可证编号： SC12") = Ok (Some (u "SC12")).
Proof.
  split.
  - refine (proj1 (proj2 (license_number_shapes (u "许可证 SC10435792468013")))
              (u "许可证 ") 49%N (u "0435792468013") [] _ _ _).
    + vm_compute. reflexivity.
    + by left.
    + apply (bool_decide_eq_true_1 (digits 13 (u "0435792468013"))).
      vm_compute. reflexivity.
  - assert (Hlen : length (u "生产许可证编号： SC12") = 13)
      by (vm_compute; reflexivity).
    refine (proj1 (proj2 (proj2 (proj2
              (license_number_shapes (u "生产许可证编号： SC12")))))
              _ _ [] 65306%N [32%N] (u "12") [] _ _ _ _ _ _ _).
    + intros w (pre & post & Ht) (c & ds & -> & _ & Hn & _).
      apply (f_equal length) in Ht. rewrite Hlen, !length_app in Ht.
      simpl in Ht. lia.
    + intros w (pre & post & Ht) (ds & -> & Hn & _).
      apply (f_equal length) in Ht. rewrite Hlen, !length_app in Ht.
      simpl in Ht. lia.
    + vm_compute. reflexivity.
    + intros pre' post' _. simpl. lia.
    + vm_compute. reflexivity.
    + repeat constructor.
    + done.
    + apply (bool_decide_eq_true_1 (Forall _ (u "12"))).
      vm_compute. reflexivity.
    + vm_compute. reflexivity.
Defined.

(** ** Fields continued on the following lines *)

Lemma for_first_app {A B} (body : A -> res (option B)) pre l :
  Forall (fun x => body x = Ok None) pre ->
  for_first body (pre ++ l) = for_first body l.
Proof.
  induction 1 as [|x pre Hx _ IH]; [done|]. simpl. by rewrite Hx.
Qed.

Lemma for_first_hit {A B} (body : A -> res (option B)) x l v :
  body x = Ok (Some v) -> for_first body (x :: l) = Ok (Some v).
Proof. intros H. simpl. by rewrite H. Qed.

Lemma index_from_app x pre post i :
  x ∉ pre -> index_from x (pre ++ x :: post) i = Ok (i + length pre).
Proof.
  revert i. induction pre as [|y pre IH]; intros i Hx; simpl.
  - unfold str_eqb. rewrite bool_decide_eq_true_2 by done. f_equal. lia.
  - apply not_elem_of_cons in Hx as [Hne Hx].
    unfold str_eqb. rewrite bool_decide_eq_false_2 by done.
    rewrite IH by done. f_equal. lia.
Qed.

Lemma getitem_drop l i x rest : drop i l = x :: rest -> getitem l i = Ok x.
Proof.
  intros H. unfold getitem.
  assert (l !! i = Some x) as ->; [|done].
  rewrite <- (Nat.add_0_r i), <- lookup_drop, H. done.
Qed.

Lemma drop_cons_S {A} (l : list A) i x rest :
  drop i l = x :: rest -> drop (S i) l = rest.
Proof.
  intros H. replace (S i) with (i + 1) by lia.
  by rewrite <- drop_drop, H.
Qed.

Lemma ingredients_more_seq text_lines a k acc :
  a + k ≤ length text_lines ->
  ingredients_more text_lines (seq a k) acc =
  Ok (append_to_50 acc (take k (drop a text_lines))).
Proof.
  revert a acc. induction k as [|k IH]; intros a acc Hk; [done|].
  destruct (drop a text_lines) as [|x rest] eqn:E.
  { apply (f_equal length) in E. rewrite length_drop in E. simpl in E. lia. }
  cbn [seq ingredients_more take append_to_50].
  rewrite (getitem_drop _ _ _ _ E). cbn [mbind res_bind].
  pose proof (IH (S a)) as IH'. rewrite (drop_cons_S _ _ _ _ E) in IH'.
  destruct (bool_decide (strip x = [])); simpl negb; cbv iota.
  - apply IH'. lia.
  - destruct (50 <? length (acc ++ SP :: strip x)); [done|]. apply IH'. lia.
Qed.

Lemma storage_more_seq text_lines a k acc :
  a + k ≤ length text_lines ->
  storage_more text_lines (seq a k) acc =
  Ok (append_until storage_stop acc (take k (drop a text_lines))).
Proof.
  revert a acc. induction k as [|k IH]; intros a acc Hk; [done|].
  destruct (drop a text_lines) as [|x rest] eqn:E.
  { apply (f_equal length) in E. rewrite length_drop in E. simpl in E. lia. }
  cbn [seq storage_more take append_until].
  rewrite (getitem_drop _ _ _ _ E). cbn [mbind res_bind].
  pose proof (IH (S a)) as IH'. rewrite (drop_cons_S _ _ _ _ E) in IH'.
  destruct (bool_decide (strip x = [])); cbn [negb andb orb]; [done|].
  destruct (contains_any storage_stop x); cbn [negb andb orb]; [done|].
  apply IH'. lia.
Qed.

(** The lines a loop over [range(idx + 1, min(idx + n + 1, len))] visits. *)
Lemma range_after (pre : list str) line post n :
  range_ (length pre + 1) (min (length pre + S n) (length (pre ++ line :: post)))
  = seq (length pre + 1) (min n (length post)) /\
  length pre + 1 + min n (length post) ≤ length (pre ++ line :: post) /\
  take (min n (length post)) (drop (length pre + 1) (pre ++ line :: post))
  = take n post.
Proof.
  rewrite length_app. simpl. unfold range_. split; [f_equal; lia|].
  split; [lia|].
  replace (length pre + 1) with (S (length pre)) by lia.
  rewrite drop_app_ge by lia.
  replace (S (length pre) - length pre) with 1 by lia. simpl. rewrite drop_0.
  destruct (Nat.le_gt_cases n (length post)).
  - by rewrite Nat.min_l.
  - rewrite Nat.min_r by lia. by rewrite !take_ge by lia.
Qed.

Lemma labelled_value_body kws p line :
  labelled_value kws p line = Ok None ->
  contains_any kws line = false \/ search (p_re p) line = None.
Proof.
  unfold labelled_value. destruct (contains_any kws line); [|by left].
  destruct (search (p_re p) line) as [m|]; [|by right].
  by destruct (group_strip m 1).
Qed.

Lemma labelled_value_hit kws p line v :
  labelled_value kws p line = Ok (Some v) ->
  contains_any kws line = true /\
  exists m, search (p_re p) line = Some m /\ group_strip m 1 = Ok v.
Proof.
  unfold labelled_value. destruct (contains_any kws line); [|done].
  destruct (search (p_re p) line) as [m|]; [|done].
  destruct (group_strip m 1) as [w|] eqn:E; [|done].
  intros [= <-]. eauto.
Qed.

Lemma not_hit_not_in {A} (f : list N -> res (option A)) (pre : list str) line v :
  Forall (fun l => f l = Ok None) pre -> f line = Ok (Some v) -> line ∉ pre.
Proof.
  intros Hpre Hline Hin. rewrite Forall_forall in Hpre.
  specialize (Hpre _ Hin). congruence.
Qed.

Lemma extract_ingredients_at pre line post v full_text :
  Forall (fun l => ingredients_value l = Ok None) pre ->
  ingredients_value line = Ok (Some v) ->
  extract_ingredients (pre ++ line :: post) full_text =
  Ok (Some (strip (if length v <? 10 then append_to_50 v (take 4 post) else v))).
Proof.
  intros Hpre Hline. unfold extract_ingredients.
  pose proof (not_hit_not_in _ _ _ _ Hpre Hline) as Hnotin.
  rewrite for_first_app.
  - unfold ingredients_value in Hline.
    apply labelled_value_hit in Hline as (Hc & m & Hm & Hg).
    apply for_first_hit. rewrite Hc, Hm, Hg. cbn [mbind res_bind].
    destruct (length v <? 10); [|done].
    unfold index. rewrite index_from_app by done. cbn [mbind res_bind].
    destruct (range_after pre line post 4) as (Hr & Hlen & Ht).
    replace (0 + length pre + 5) with (length pre + 5) by lia.
    replace (0 + length pre + 1) with (length pre + 1) by lia.
    rewrite Hr, ingredients_more_seq by done. cbn [mbind res_bind].
    by rewrite Ht.
  - eapply Forall_impl; [exact Hpre|]. intros l Hl. cbv beta.
    unfold ingredients_value in Hl.
    apply labelled_value_body in Hl as [Hl|Hl]; [by rewrite Hl|].
    destruct (contains_any _ l); [|done]. by rewrite Hl.
Qed.

Lemma extract_address_at pre line post v full_text :
  Forall (fun l => address_value l = Ok None) pre ->
  address_value line = Ok (Some v) ->
  extract_address (pre ++ line :: post) full_text =
  Ok (Some (if length v <? 10
            then match post with
                 | nxt :: _ => v ++ SP :: strip nxt
                 | [] => v
                 end
            else v)).
Proof.
  intros Hpre Hline. unfold extract_address.
  pose proof (not_hit_not_in _ _ _ _ Hpre Hline) as Hnotin.
  rewrite for_first_app.
  - apply for_first_hit. unfold address_value in Hline.
    destruct (contains _ line); [|done].
    destruct (search _ line) as [m|]; [|done].
    destruct (group_strip m 1) as [w|] eqn:Hg; [|done].
    injection Hline as ->. cbn [mbind res_bind]. unfold char.
    destruct (length v <? 10); [|done].
    unfold index. rewrite index_from_app by done. cbn [mbind res_bind].
    rewrite length_app. cbn [length].
    replace (0 + length pre + 1) with (S (length pre)) by lia.
    destruct post as [|nxt post]; cbn [length].
    + rewrite (proj2 (Nat.ltb_ge _ _)) by lia. done.
    + rewrite (proj2 (Nat.ltb_lt _ _)) by lia.
      rewrite (getitem_drop _ _ nxt post); [done|].
      rewrite drop_app_ge by lia.
      by replace (S (length pre) - length pre) with 1 by lia.
  - eapply Forall_impl; [exact Hpre|]. intros l Hl. cbv beta.
    unfold address_value in Hl. destruct (contains _ l); [|done].
    destruct (search _ l) as [m|]; [|done]. by destruct (group_strip m 1).
Qed.

Lemma extract_storage_at pre line post full_text :
  Forall (fun l => contains_any storage_keywords l = false) pre ->
  contains_any storage_keywords line = true ->
  extract_storage_conditions (pre ++ line :: post) full_text =
  Ok (Some (append_until storage_stop (strip line) (take 2 post))).
Proof.
  intros Hpre Hline. unfold extract_storage_conditions.
  assert (Hnotin : line ∉ pre).
  { intros Hin. rewrite Forall_forall in Hpre. specialize (Hpre _ Hin). congruence. }
  rewrite for_first_app.
  - apply for_first_hit. rewrite Hline.
    unfold index. rewrite index_from_app by done. cbn [mbind res_bind].
    destruct (range_after pre line post 2) as (Hr & Hlen & Ht).
    replace (0 + length pre + 3) with (length pre + 3) by lia.
    replace (0 + length pre + 1) with (length pre + 1) by lia.
    rewrite Hr, storage_more_seq by done. cbn [mbind res_bind].
    by rewrite Ht.
  - eapply Forall_impl; [exact Hpre|]. intros l Hl. cbv beta. by rewrite Hl.
Qed.

(** Nothing from a stop line on is appended. *)
Lemma append_until_stop stop acc a l b :
  contains_any stop l = true ->
  append_until stop acc (a ++ l :: b) = append_until stop acc a.
Proof.
  intros Hl. revert acc. induction a as [|x a IH]; intros acc; simpl.
  - by rewrite Hl, orb_true_r.
  - destruct (_ || _); [done|]. apply IH.
Qed.

(** The lines appended by [append_to_50] are the first non-blank ones,
    as many as are needed to pass 50 characters. *)
Lemma append_to_50_spec acc ls :
  exists j,
    append_to_50 acc ls =
      acc ++ concat ((fun l => SP :: strip l) <$>
                     take j (filter (fun l => strip l <> []) ls)) /\
    (j = length (filter (fun l => strip l <> []) ls) \/
     50 < length (append_to_50 acc ls)).
Proof.
  revert acc. induction ls as [|l ls IH]; intros acc.
  - exists 0. simpl. rewrite app_nil_r. auto.
  - simpl. rewrite filter_cons. destruct (decide (strip l = [])) as [E|E].
    + rewrite bool_decide_eq_true_2 by done. rewrite decide_False by auto.
      apply IH.
    + rewrite bool_decide_eq_false_2 by done. rewrite decide_True by done.
      destruct (Nat.ltb_spec 50 (length (acc ++ SP :: strip l))) as [Hlt|Hge].
      * exists 1. simpl. rewrite ?take_0. simpl. rewrite app_nil_r. auto.
      * destruct (IH (acc ++ SP :: strip l)) as (j & Hj & Hend).
        exists (S j). split.
        -- simpl. by rewrite Hj, <- app_assoc.
        -- destruct Hend as [->|Hend]; [by left|by right].
Qed.

(** C7 (counterexample): on the bread label the ingredients are
    continued with the lines of the net content, the producer, the
    production date and the shelf life, which belong to other fields;
    and the address of [address_lines] takes one following line only,
    although it stays short. *)
Lemma continuation_ignores_labels :
  extract_ingredients bread_lines (join [LF] bread_lines) =
    Ok (Some (u "全麦粉、小麦粉、水 净含量：400g XX烘焙食品有限公司 生产日期：2025-04-20 保质期：7天")) /\
  extract_address address_lines (join [LF] address_lines) =
    Ok (Some (u "北京市 朝阳区")).
Proof. split; by_eval. Qed.

(** C7 (amended): on the first line that holds an ingredients keyword
    and matches the labelled pattern, a value shorter than 10 characters
    is continued with the non-blank lines among the next 4, each after a
    space, until the text is longer than 50 characters; lines of other
    fields are not told apart.  The address takes, when shorter than 10
    characters, the one next line.  The storage conditions are the
    first line with a storage keyword, continued with at most the next
    2 lines up to the first one that is blank or contains 生产, 厂址 or
    电话: nothing from such a line on is appended. *)
Theorem continuation_lines :
  (forall pre line post v full_text,
     Forall (fun l => ingredients_value l = Ok None) pre ->
     ingredients_value line = Ok (Some v) ->
     extract_ingredients (pre ++ line :: post) full_text =
     Ok (Some (strip (if length v <? 10
                      then append_to_50 v (take 4 post) else v)))) /\
  (forall acc ls,
     exists j,
       append_to_50 acc ls =
         acc ++ concat ((fun l => SP :: strip l) <$>
                        take j (filter (fun l => strip l <> []) ls)) /\
       (j = length (filter (fun l => strip l <> []) ls) \/
        50 < length (append_to_50 acc ls))) /\
  (forall pre line post v full_text,
     Forall (fun l => address_value l = Ok None) pre ->
     address_value line = Ok (Some v) ->
     extract_address (pre ++ line :: post) full_text =
     Ok (Some (if length v <? 10
               then match post with
                    | nxt :: _ => v ++ SP :: strip nxt
                    | [] => v
                    end
               else v))) /\
  (forall pre line post full_text,
     Forall (fun l => contains_any storage_keywords l = false) pre ->
     contains_any storage_keywords line = true ->
     extract_storage_conditions (pre ++ line :: post) full_text =
     Ok (Some (append_until [u "生产"; u "厂址"; u "电话"] (strip line)
                 (take 2 post)))) /\
  (forall stop acc a l b,
     contains_any stop l = true ->
     append_until stop acc (a ++ l :: b) = append_until stop acc a).
Proof.
  split; [exact extract_ingredients_at|].
  split; [exact append_to_50_spec|].
  split; [exact extract_address_at|].
  split; [exact extract_storage_at|exact append_until_stop].
Qed.

Lemma continuation_lines_witness :
  extract_ingredients
    ([u "全麦吐司面包"] ++ u "配料：全麦粉、小麦粉、水" ::
       [u "净含量：400g"; u "XX烘焙食品有限公司"; u "生产日期：2025-04-20";
        u "保质期：7天"]) [] =
  Ok (Some (strip (append_to_50 (u "全麦粉、小麦粉、水")
                     (take 4 [u "净含量：400g"; u "XX烘焙食品有限公司";
                              u "生产日期：2025-04-20"; u "保质期：7天"])))).
Proof.
  refine (proj1 continuation_lines [u "全麦吐司面包"] (u "配料：全麦粉、小麦粉、水")
            _ (u "全麦粉、小麦粉、水") [] _ _).
  - constructor; [by_eval|constructor].
  - by_eval.
Defined.

(** ** Groups of a match *)

Lemma mre_caps_mono r s g g' s' k :
  In (g', s') (mre r s g) -> is_Some (cap_lookup k g) -> is_Some (cap_lookup k g').
Proof.
  revert s g g' s'.
  induction r as [|p|r1 IH1 r2 IH2|r1 IH1 r2 IH2|gr lo hi p|j r IH|];
    intros s g g' s' H Hk.
  - by destruct H as [[= <- _]|[]].
  - apply in_mre_Cls in H as (c & _ & _ & Hg). simpl in Hg. by subst.
  - apply in_mre_Cat in H as (g1 & s1 & H1 & H2). eauto.
  - simpl in H. apply in_app_iff in H as [H|H]; eauto.
  - apply in_mre_Rep in H as (n & [= -> _] & _). done.
  - apply in_mre_Grp in H as (g1 & s1 & H & [= -> _]). simpl.
    destruct (j =? k); [done|]. eauto.
  - simpl in H. destruct s as [|c [|c' s]]; simpl in H.
    + by destruct H as [[= <- _]|[]].
    + destruct (c =? LF)%N; [|done]. by destruct H as [[= <- _]|[]].
    + done.
Qed.

Lemma mre_must_groups r s g g' s' k :
  In (g', s') (mre r s g) -> k ∈ must_groups r -> is_Some (cap_lookup k g').
Proof.
  revert s g g' s'.
  induction r as [|p|r1 IH1 r2 IH2|r1 IH1 r2 IH2|gr lo hi p|j r IH|];
    intros s g g' s' H Hk; simpl in Hk; try by apply elem_of_nil in Hk.
  - apply in_mre_Cat in H as (g1 & s1 & H1 & H2).
    apply elem_of_app in Hk as [Hk|Hk]; [|eauto].
    eapply mre_caps_mono; eauto.
  - apply list_elem_of_filter in Hk as [Hk2 Hk1].
    simpl in H. apply in_app_iff in H as [H|H]; eauto.
  - apply in_mre_Grp in H as (g1 & s1 & H & [= -> _]). simpl.
    apply elem_of_cons in Hk as [->|Hk]; [by rewrite Nat.eqb_refl|].
    destruct (j =? k); [done|]. eauto.
Qed.

Lemma search_group r s m k :
  search r s = Some m -> has_group k r = true ->
  exists v, group m k = Ok (Some v).
Proof.
  intros Hs [Hk Hn]%andb_true_iff.
  apply bool_decide_eq_true in Hk. apply Nat.leb_le in Hn.
  apply search_Some_text in Hs as (pre & post & _ & _ & Hng & Hin & _).
  destruct (mre_must_groups _ _ _ _ _ _ Hin Hk) as [v Hv].
  unfold group. destruct k; [eauto|]. exists v.
  rewrite Hng. destruct (Nat.ltb_spec (ngroups r) (S k)); [lia|]. by rewrite Hv.
Qed.

Lemma search_group_strip r s m :
  search r s = Some m -> has_group 1 r = true ->
  exists v, group m 1 = Ok (Some v) /\ group_strip m 1 = Ok (strip v).
Proof.
  intros Hs Hg. destruct (search_group _ _ _ _ Hs Hg) as [v Hv].
  exists v. split; [done|]. unfold group_strip. by rewrite Hv.
Qed.

Lemma group_fmt_Ok m k :
  k ≤ m_ngroups m -> exists v, group_fmt m k = Ok v.
Proof.
  intros Hk. unfold group_fmt, group. destruct k; [eauto|].
  destruct (Nat.ltb_spec (m_ngroups m) (S k)); [lia|].
  cbn [mbind res_bind]. destruct (cap_lookup _ _); eauto.
Qed.

Lemma first_match_total {B} (f : pattern -> rmatch -> res (option B)) ps text :
  Forall (fun p => forall m, search (p_re p) text = Some m ->
                             exists v, f p m = Ok v) ps ->
  exists r, first_match f ps text = Ok r.
Proof.
  induction 1 as [|p ps Hp _ IH]; simpl; [eauto|].
  destruct (search (p_re p) text) as [m|]; eauto.
Qed.

Lemma for_first_total {A B} (body : A -> res (option B)) l :
  (forall x, x ∈ l -> exists r, body x = Ok r) ->
  exists r, for_first body l = Ok r.
Proof.
  induction l as [|x l IH]; intros H; simpl; [eauto|].
  destruct (H x) as [r Hr]; [by left|]. rewrite Hr. cbn [mbind res_bind].
  destruct r; [eauto|]. apply IH. intros y Hy. apply H. by right.
Qed.

Lemma strip_group1_total p text :
  has_group 1 (p_re p) = true ->
  forall m, search (p_re p) text = Some m -> exists v, strip_group1 p m = Ok v.
Proof.
  intros Hg m Hs. destruct (search_group_strip _ _ _ Hs Hg) as (v & _ & Hv).
  unfold strip_group1. rewrite Hv. eauto.
Qed.

Lemma group1_or_0_total p m : exists v, group1_or_0 p m = Ok v.
Proof.
  unfold group1_or_0, group.
  destruct (Nat.ltb_spec 0 (m_ngroups m)); [|eauto].
  destruct (Nat.ltb_spec (m_ngroups m) 1); [lia|eauto].
Qed.

(** ** Extractors that cannot raise *)

Ltac each_pattern tac :=
  repeat (match goal with |- Forall _ (_ :: _) => constructor; [tac|] end);
  try apply Forall_nil_2.

Lemma index_from_total x l k :
  x ∈ l -> exists i, index_from x l k = Ok i /\ k ≤ i < k + length l.
Proof.
  revert k. induction l as [|y l IH]; intros k Hx; [by apply elem_of_nil in Hx|].
  simpl. unfold str_eqb. destruct (decide (y = x)) as [->|Hne].
  - rewrite bool_decide_eq_true_2 by done. exists k. split; [done|lia].
  - rewrite bool_decide_eq_false_2 by done.
    apply elem_of_cons in Hx as [->|Hx]; [done|].
    destruct (IH (S k) Hx) as (i & Hi & Hb). exists i. split; [done|lia].
Qed.

Lemma index_total x l :
  x ∈ l -> exists i, index x l = Ok i /\ i < length l.
Proof.
  intros Hx. destruct (index_from_total x l 0 Hx) as (i & Hi & Hb).
  exists i. split; [done|lia].
Qed.

Lemma range_within idx n len :
  idx < len ->
  exists k, range_ (idx + 1) (min (idx + n) len) = seq (idx + 1) k /\
            idx + 1 + k ≤ len.
Proof.
  intros H. exists (min (idx + n) len - (idx + 1)). split; [done|lia].
Qed.

Lemma getitem_total l i : i < length l -> exists x, getitem l i = Ok x.
Proof.
  intros [x Hx]%lookup_lt_is_Some. exists x. unfold getitem. by rewrite Hx.
Qed.

Lemma value_unit_total m dflt :
  1 ≤ m_ngroups m ->
  exists v,
    (value ← group_fmt m 1;
     unit ← (if 1 <? m_ngroups m then group_fmt m 2 else Ok dflt);
     Ok (Some (value ++ unit))) = Ok v.
Proof.
  intros H. destruct (group_fmt_Ok m 1 H) as [a ->]. cbn [mbind res_bind].
  destruct (Nat.ltb_spec 1 (m_ngroups m)) as [H2|_]; [|eauto].
  destruct (group_fmt_Ok m 2 H2) as [b ->]. eauto.
Qed.

Lemma extract_food_name_total text_lines full_text :
  exists r, extract_food_name text_lines full_text = Ok r.
Proof.
  unfold extract_food_name.
  match goal with |- context [for_first ?b text_lines ≫= _] =>
    destruct (for_first_total b text_lines) as [r ->] end.
  - intros line _. destruct (_ || _); [|eauto].
    destruct (search _ line) as [m|] eqn:Hs; [|eauto].
    destruct (search_group_strip _ _ _ Hs eq_refl) as (v & _ & ->). eauto.
  - cbn [mbind res_bind]. destruct r; [eauto|].
    apply for_first_total. intros line _. destruct (_ && _); eauto.
Qed.

Lemma extract_ingredients_total text_lines full_text :
  exists r, extract_ingredients text_lines full_text = Ok r.
Proof.
  apply for_first_total. intros line Hin.
  destruct (contains_any _ line); [|eauto].
  destruct (search _ line) as [m|] eqn:Hs; [|eauto].
  destruct (search_group_strip _ _ _ Hs eq_refl) as (v & _ & ->).
  cbn [mbind res_bind]. destruct (_ <? 10); [|eauto].
  destruct (index_total _ _ Hin) as (idx & -> & Hidx). cbn [mbind res_bind].
  destruct (range_within idx 5 _ Hidx) as (k & -> & Hk).
  rewrite ingredients_more_seq by done. eauto.
Qed.

Lemma extract_net_content_total full_text :
  exists r, extract_net_content full_text = Ok r.
Proof.
  apply first_match_total. unfold net_content_patterns.
  each_pattern ltac:(intros m Hm%search_ngroups; apply value_unit_total;
                     rewrite Hm; vm_compute; lia).
Qed.

Lemma extract_specification_total full_text :
  exists r, extract_specification full_text = Ok r.
Proof.
  apply first_match_total. unfold specification_patterns.
  each_pattern ltac:(by apply strip_group1_total).
Qed.

Lemma extract_producer_total text_lines full_text :
  exists r, extract_producer text_lines full_text = Ok r.
Proof.
  unfold extract_producer.
  match goal with |- context [for_first ?b producer_keywords ≫= _] =>
    destruct (for_first_total b producer_keywords) as [r ->] end.
  - intros kw Hkw. destruct (contains kw full_text); [|eauto].
    destruct (search _ _) as [m|] eqn:Hs; [|eauto].
    assert (Hg : has_group 1 (producer_re kw) = true).
    { unfold producer_keywords in Hkw.
      repeat (apply elem_of_cons in Hkw as [->|Hkw]; [reflexivity|]).
      by apply elem_of_nil in Hkw. }
    destruct (search_group_strip _ _ _ Hs Hg) as (v & _ & ->). eauto.
  - cbn [mbind res_bind]. destruct r; [eauto|].
    apply for_first_total. intros line _. destruct (_ && _); eauto.
Qed.

Lemma extract_address_total text_lines full_text :
  exists r, extract_address text_lines full_text = Ok r.
Proof.
  apply for_first_total. intros line Hin.
  destruct (contains _ line); [|eauto].
  destruct (search _ line) as [m|] eqn:Hs; [|eauto].
  destruct (search_group_strip _ _ _ Hs eq_refl) as (v & _ & ->).
  cbn [mbind res_bind]. destruct (_ <? 10); [|eauto].
  destruct (index_total _ _ Hin) as (idx & -> & Hidx). cbn [mbind res_bind].
  destruct (Nat.ltb_spec (idx + 1) (length text_lines)) as [Hlt|]; [|eauto].
  destruct (getitem_total _ _ Hlt) as [x ->]. eauto.
Qed.

Lemma extract_contact_info_total full_text :
  exists r, extract_contact_info full_text = Ok r.
Proof.
  apply first_match_total. unfold phone_patterns.
  each_pattern ltac:(by apply strip_group1_total).
Qed.

Lemma extract_shelf_life_total full_text :
  exists r, extract_shelf_life full_text = Ok r.
Proof.
  apply first_match_total. unfold shelf_life_patterns. constructor; [|constructor; [|constructor]].
  - intros m Hm. rewrite (search_ngroups _ _ _ Hm).
    change (1 <? ngroups _) with true. cbv iota.
    assert (H1 : 1 ≤ m_ngroups m) by (rewrite (search_ngroups _ _ _ Hm); vm_compute; lia).
    assert (H2 : 2 ≤ m_ngroups m) by (rewrite (search_ngroups _ _ _ Hm); vm_compute; lia).
    destruct (group_fmt_Ok m 1 H1) as [a ->]. destruct (group_fmt_Ok m 2 H2) as [b ->].
    eauto.
  - intros m Hm. rewrite (search_ngroups _ _ _ Hm).
    change (1 <? ngroups _) with false. cbv iota.
    destruct (search_group_strip _ _ _ Hm eq_refl) as (v & _ & ->). eauto.
Qed.

Lemma extract_storage_conditions_total text_lines full_text :
  exists r, extract_storage_conditions text_lines full_text = Ok r.
Proof.
  apply for_first_total. intros line Hin.
  destruct (contains_any _ line); [|eauto].
  destruct (index_total _ _ Hin) as (idx & -> & Hidx). cbn [mbind res_bind].
  destruct (range_within idx 3 _ Hidx) as (k & -> & Hk).
  rewrite storage_more_seq by done. eauto.
Qed.

Lemma extract_standard_code_total full_text :
  exists r, extract_standard_code full_text = Ok r.
Proof.
  apply first_match_total. unfold standard_code_patterns.
  each_pattern ltac:(intros m _; apply group1_or_0_total).
Qed.

Lemma extract_quality_grade_total full_text :
  exists r, extract_quality_grade full_text = Ok r.
Proof.
  apply first_match_total. unfold quality_grade_patterns.
  each_pattern ltac:(by apply strip_group1_total).
Qed.

Lemma extract_allergens_total full_text :
  exists r, extract_allergens full_text = Ok r.
Proof.
  apply for_first_total. intros kw _.
  destruct (contains kw full_text); [|eauto].
  destruct (search _ _) as [m|] eqn:Hs; [|eauto].
  destruct (search_group_strip _ _ _ Hs eq_refl) as (v & _ & ->). eauto.
Qed.

Lemma extract_warning_total text_lines full_text :
  exists r, extract_warning text_lines full_text = Ok r.
Proof.
  apply for_first_total. intros line _. destruct (contains_any _ line); eauto.
Qed.

Lemma extract_barcode_total full_text :
  exists r, extract_barcode full_text = Ok r.
Proof.
  apply first_match_total. unfold barcode_patterns.
  each_pattern ltac:(intros m _; apply group1_or_0_total).
Qed.

(** ** [extract_production_date] *)

Lemma see_package_sound s g' s' :
  In (g', s') (mre (pattern_at production_date_patterns 2) s []) ->
  exists w, s = w ++ s' /\ see_package w.
Proof.
  unfold pattern_at, production_date_patterns. cbn [lookup list_lookup p_re].
  cbn [mre]. rewrite !in_app_iff, !in_mre_lit. unfold see_package.
  intros [[Hs _]|[[Hs _]|[Hs _]]]; simpl in Hs; subst s;
    [exists (u "见封口")|exists (u "见瓶身")|exists (u "见包装")];
    (split; [reflexivity|]); [left|right; left|right; right]; reflexivity.
Qed.

Lemma see_package_complete w rest :
  see_package w -> mre (pattern_at production_date_patterns 2) (w ++ rest) [] <> [].
Proof.
  intros Hw Hnil.
  assert (Hin : In ([], rest) (mre (pattern_at production_date_patterns 2) (w ++ rest) []));
    [|by rewrite Hnil in Hin].
  unfold pattern_at, production_date_patterns. cbn [lookup list_lookup p_re].
  cbn [mre]. rewrite !in_app_iff, !in_mre_lit. simpl.
  destruct Hw as [-> | [-> | ->]]; [left|right; left|right; right]; done.
Qed.

Lemma is_space_cases c :
  is_space c = true ->
  In c [9; 10; 11; 12; 13; 28; 29; 30; 31; 32; 133; 160; 5760; 8192; 8193;
        8194; 8195; 8196; 8197; 8198; 8199; 8200; 8201; 8202; 8232; 8233;
        8239; 8287; 12288]%N.
Proof.
  unfold is_space.
  rewrite !orb_true_iff, !andb_true_iff, !N.leb_le, !N.eqb_eq. simpl. lia.
Qed.

Lemma decimal_not_space c : is_decimal c = true -> is_space c = false.
Proof.
  intros Hd. destruct (is_space c) eqn:Hs; [|done].
  apply is_space_cases in Hs. simpl in Hs.
  repeat (destruct Hs as [<-|Hs]; [vm_compute in Hd; discriminate|]).
  done.
Qed.

Lemma strip_id w a b :
  is_space a = false -> is_space b = false ->
  strip (a :: w ++ [b]) = a :: w ++ [b].
Proof.
  intros Ha Hb. unfold strip, rstrip.
  assert (E1 : lstrip (a :: w ++ [b]) = a :: w ++ [b])
    by (cbn [lstrip]; by rewrite Ha).
  assert (E2 : @rev N (a :: w ++ [b]) = b :: @rev N (a :: w))
    by (by rewrite app_comm_cons, rev_app_distr).
  rewrite E1, E2. cbn [lstrip]. rewrite Hb.
  change (b :: @rev N (a :: w)) with ([b] ++ @rev N (a :: w)).
  by rewrite rev_app_distr, rev_involutive.
Qed.

Lemma head_mre_Cat_always r1 r2 s g x :
  (forall g1 s1, mre r2 s1 g1 <> []) ->
  head (mre (Cat r1 r2) s g) = Some x ->
  exists g1 s1, head (mre r1 s g) = Some (g1, s1) /\
                head (mre r2 s1 g1) = Some x.
Proof.
  intros Hne. simpl. destruct (mre r1 s g) as [|[g1 s1] l]; [done|]. simpl.
  specialize (Hne g1 s1). destruct (mre r2 s1 g1) as [|y t] eqn:E; [done|].
  intros [= ->]. exists g1, s1. by rewrite E.
Qed.

Lemma mre_Rep0_nonempty hi p s g : mre (Rep true 0 hi p) s g <> [].
Proof.
  intros E. pose proof (head_mre_Rep_greedy 0 hi p s g) as H.
  rewrite E in H. simpl in H. discriminate H. lia.
Qed.

Lemma span_max_hi p h s :
  span p (Some h) s = h \/
  match drop (span p (Some h) s) s with [] => True | c :: _ => p c = false end.
Proof.
  revert h. induction s as [|c s IH]; intros h; simpl; [by right|].
  destruct h as [|h]; [by left|].
  destruct (p c) eqn:E; simpl; [|by right].
  destruct (IH h) as [->|H]; [by left|by right].
Qed.

Lemma take_span_length p h s n :
  n ≤ span p h s -> length (take n s) = n.
Proof. intros H. pose proof (span_le_length p h s). rewrite length_take. lia. Qed.

Lemma span_opt_cases q s :
  (span q (Some 1) s = 0 /\ match s with [] => True | c :: _ => q c = false end) \/
  (exists c t, s = c :: t /\ q c = true /\ span q (Some 1) s = 1).
Proof.
  destruct s as [|c t]; simpl; [by left|].
  destruct (q c) eqn:E; [right|by left].
  exists c, t. repeat split; [done|]. by destruct t.
Qed.

(** The first candidate of the first dated pattern: the date, with the
    day and 日 taken in full. *)
Lemma date_head0 s g' s' :
  head (mre (pattern_at production_date_patterns 0) s []) = Some (g', s') ->
  exists c ws v,
    s = u "生产日期" ++ c :: ws ++ v ++ s' /\
    colon c = true /\ Forall (fun c => is_space c = true) ws /\
    date_text v s' /\ g' = [(1, v)].
Proof.
  unfold pattern_at, production_date_patterns. cbn [lookup list_lookup p_re cat].
  unfold star, between, opt.
  intros (g1 & s1 & [Hs Hg1]%in_mre_lit &
          (g2 & s2 & (c & Hs1 & Hc & Hg2)%in_mre_Cls &
           (g3 & s3 & (n & [= Hg3 Hs3] & Hn)%in_mre_Rep &
            H)%head_mre_Cat_inv)%head_mre_Cat_inv)%head_mre_Cat_inv.
  rewrite mre_Cat_Eps in H.
  apply head_mre_Grp_inv in H as (g4 & s4 & H & [= Hg' Hs']).
  apply head_mre_Cat_inv in H
    as (g5 & s5 & (y & Hy & Hg5 & Hylen & Hyd)%in_mre_times & H).
  apply head_mre_Cat_inv in H as (g6 & s6 & (c1 & Hs5 & Hc1 & Hg6)%in_mre_Cls & H).
  apply head_mre_Cat_inv in H
    as (g7 & s7 & (nm & [= Hg7 Hs7] & Hnm)%in_mre_Rep & H).
  apply head_mre_Cat_inv in H as (g8 & s8 & (c2 & Hs7' & Hc2 & Hg8)%in_mre_Cls & H).
  apply head_mre_Cat_always in H as (g9 & s9 & Hd & H);
    [|intros; rewrite mre_Cat_Eps; apply mre_Rep0_nonempty].
  rewrite mre_Cat_Eps in H.
  apply head_mre_Rep_greedy_inv in Hd as [[= Hg9 Hs9] Hkd].
  apply head_mre_Rep_greedy_inv in H as [[= Hg4 Hs4] _].
  cbn [fst snd] in *.
  set (k := span digit (Some 2) s8) in *.
  set (j := span (oneof (ustr "日")) (Some 1) s9) in *.
  pose proof (span_le_hi digit 2 s6) as Hm2.
  pose proof (span_le_hi digit 2 s8) as Hd2. fold k in Hd2.
  assert (Es9 : s9 = take j s9 ++ s4) by (by rewrite Hs4, take_drop).
  assert (Es8 : s8 = take k s8 ++ s9) by (by rewrite Hs9, take_drop).
  assert (Es6 : s6 = take nm s6 ++ c2 :: s8)
    by (by rewrite <- Hs7', Hs7, take_drop).
  assert (Es2 : s2 = take n s2 ++ s3) by (by rewrite Hs3, take_drop).
  set (v := y ++ c1 :: take nm s6 ++ c2 :: take k s8 ++ take j s9).
  assert (Ev : s3 = v ++ s4).
  { unfold v. rewrite Hy, Hs5, Es6 at 1. rewrite Es8 at 1. rewrite Es9 at 1.
    rewrite <- !app_assoc. simpl. rewrite <- !app_assoc. simpl.
    by rewrite <- !app_assoc. }
  assert (Hv : take (length s3 - length s4) s3 = v)
    by (rewrite Ev; apply take_app_sub).
  exists c, (take n s2), v. subst s' g' g4 g9 g8 g7 g6 g5 g3 g2 g1.
  split; [|split; [done|split; [|split]]].
  - rewrite Hs, Hs1, Es2 at 1. rewrite Ev at 1. reflexivity.
  - apply (span_Forall space None). lia.
  - exists y, c1, (take nm s6), c2, (take k s8), (take j s9).
    split; [done|]. split; [by split|].
    rewrite (take_span_length digit (Some 2) s6 nm) by lia.
    rewrite (take_span_length digit (Some 2) s8 k) by (unfold k; lia).
    split; [lia|]. split; [apply (span_Forall digit (Some 2)); lia|].
    split; [lia|]. split; [apply (span_Forall digit (Some 2)); unfold k; lia|].
    split.
    + destruct (span_max_hi digit 2 s8) as [E|E]; [by left|right].
      fold k in E. rewrite <- Hs9, Es9 in E. exact E.
    + left. split; [exact Hc1|]. split; [exact Hc2|].
      subst j.
      destruct (span_opt_cases (oneof (ustr "日")) s9) as [[E0 Hno]|(c9 & t & -> & Hq & E1)].
      * right. rewrite E0 in Hs4 |- *. split; [done|].
        intros post' Hp. rewrite Hs4, drop_0 in Hp. rewrite Hp in Hno.
        vm_compute in Hno. discriminate.
      * left. rewrite E1.
        unfold oneof in Hq. simpl in Hq. rewrite orb_false_r in Hq.
        apply N.eqb_eq in Hq. by subst c9.
  - by rewrite Hv.
Qed.

(** The first candidate of the second dated pattern. *)
Lemma date_head1 s g' s' :
  head (mre (pattern_at production_date_patterns 1) s []) = Some (g', s') ->
  exists c ws v,
    s = u "生产日期" ++ c :: ws ++ v ++ s' /\
    colon c = true /\ Forall (fun c => is_space c = true) ws /\
    date_text v s' /\ g' = [(1, v)].
Proof.
  unfold pattern_at, production_date_patterns. cbn [lookup list_lookup p_re cat].
  unfold star, between.
  intros (g1 & s1 & [Hs Hg1]%in_mre_lit &
          (g2 & s2 & (c & Hs1 & Hc & Hg2)%in_mre_Cls &
           (g3 & s3 & (n & [= Hg3 Hs3] & Hn)%in_mre_Rep &
            H)%head_mre_Cat_inv)%head_mre_Cat_inv)%head_mre_Cat_inv.
  rewrite mre_Cat_Eps in H.
  apply head_mre_Grp_inv in H as (g4 & s4 & H & [= Hg' Hs']).
  apply head_mre_Cat_inv in H
    as (g5 & s5 & (y & Hy & Hg5 & Hylen & Hyd)%in_mre_times & H).
  apply head_mre_Cat_inv in H as (g6 & s6 & (c1 & Hs5 & Hc1 & Hg6)%in_mre_Cls & H).
  apply head_mre_Cat_inv in H
    as (g7 & s7 & (nm & [= Hg7 Hs7] & Hnm)%in_mre_Rep & H).
  apply head_mre_Cat_inv in H as (g8 & s8 & (c2 & Hs7' & Hc2 & Hg8)%in_mre_Cls & H).
  rewrite mre_Cat_Eps in H.
  apply head_mre_Rep_greedy_inv in H as [[= Hg4 Hs4] Hkd].
  cbn [fst snd] in *.
  set (k := span digit (Some 2) s8) in *.
  pose proof (span_le_hi digit 2 s6) as Hm2.
  pose proof (span_le_hi digit 2 s8) as Hd2. fold k in Hd2.
  assert (Es8 : s8 = take k s8 ++ s4) by (by rewrite Hs4, take_drop).
  assert (Es6 : s6 = take nm s6 ++ c2 :: s8)
    by (by rewrite <- Hs7', Hs7, take_drop).
  assert (Es2 : s2 = take n s2 ++ s3) by (by rewrite Hs3, take_drop).
  set (v := y ++ c1 :: take nm s6 ++ c2 :: take k s8 ++ []).
  assert (Ev : s3 = v ++ s4).
  { unfold v. rewrite Hy, Hs5, Es6 at 1. rewrite Es8 at 1.
    rewrite app_nil_r, <- !app_assoc. simpl. by rewrite <- !app_assoc. }
  assert (Hv : take (length s3 - length s4) s3 = v)
    by (rewrite Ev; apply take_app_sub).
  exists c, (take n s2), v. subst s' g' g4 g8 g7 g6 g5 g3 g2 g1.
  split; [|split; [done|split; [|split]]].
  - rewrite Hs, Hs1, Es2 at 1. rewrite Ev at 1. reflexivity.
  - apply (span_Forall space None). lia.
  - exists y, c1, (take nm s6), c2, (take k s8), [].
    split; [done|]. split; [by split|].
    rewrite (take_span_length digit (Some 2) s6 nm) by lia.
    rewrite (take_span_length digit (Some 2) s8 k) by (unfold k; lia).
    split; [lia|]. split; [apply (span_Forall digit (Some 2)); lia|].
    split; [lia|]. split; [apply (span_Forall digit (Some 2)); unfold k; lia|].
    split.
    + destruct (span_max_hi digit 2 s8) as [E|E]; [by left|right].
      fold k in E. rewrite <- Hs4 in E. exact E.
    + right. unfold chr in Hc1, Hc2.
      apply N.eqb_eq in Hc1, Hc2. by subst.
  - by rewrite Hv.
Qed.

Lemma in_mre_between lo hi p w s g :
  lo ≤ length w ≤ hi -> Forall (fun c => p c = true) w ->
  In (g, s) (mre (between lo hi p) (w ++ s) g).
Proof.
  intros Hlen Hw. unfold between. apply in_mre_Rep. exists (length w).
  rewrite drop_app_length. split; [done|]. split; [lia|].
  apply span_ge; [done|]. intros h [= <-]. lia.
Qed.

(** A date after the label, a colon and blanks is found by one of the
    dated patterns. *)
Lemma date_complete c ws v post :
  colon c = true -> Forall (fun c => is_space c = true) ws ->
  date_text v post ->
  mre (pattern_at production_date_patterns 0)
      (u "生产日期" ++ c :: ws ++ v ++ post) [] <> [] \/
  mre (pattern_at production_date_patterns 1)
      (u "生产日期" ++ c :: ws ++ v ++ post) [] <> [].
Proof.
  intros Hc Hws (y & c1 & m & c2 & d & e & Hv & [Hy4 Hy] & Hm & Hmd & Hd & Hdd & _ & Hsep).
  assert (Hstar : In ([], v ++ post) (mre (star space) (ws ++ v ++ post) [])).
  { unfold star. apply in_mre_Rep. exists (length ws).
    rewrite drop_app_length. split; [done|]. split; [lia|].
    apply span_ge; [done|]. by intros h [=]. }
  assert (Hgrp : forall r, In ([], post) (mre r (v ++ post) []) ->
                 In ([(1, v)], post) (mre (Grp 1 r) (v ++ post) [])).
  { intros r Hr. apply in_mre_Grp. exists [], post. split; [done|].
    by rewrite take_app_sub. }
  assert (Hpre : forall r, In ([(1, v)], post) (mre r (v ++ post) []) ->
    mre (cat [lit (ustr "生产日期"); Cls colon; star space; r])
        (u "生产日期" ++ c :: ws ++ v ++ post) [] <> []).
  { intros r Hr Hnil.
    assert (Hin : In ([(1, v)], post)
      (mre (cat [lit (ustr "生产日期"); Cls colon; star space; r])
         (u "生产日期" ++ c :: ws ++ v ++ post) [])); [|by rewrite Hnil in Hin].
    cbn [cat].
    apply in_mre_Cat. exists [], (c :: ws ++ v ++ post).
    split; [by apply in_mre_lit|].
    apply in_mre_Cat. exists [], (ws ++ v ++ post).
    split; [apply in_mre_Cls; by exists c|].
    apply in_mre_Cat. exists [], (v ++ post). split; [done|].
    apply in_mre_Cat. exists [(1, v)], post. split; [done|]. by apply in_mre_Eps. }
  assert (Hyear : forall rest, In ([], rest) (mre (times 4 digit) (y ++ rest) []))
    by (intros rest; apply in_mre_times; by exists y).
  assert (Hcls : forall p x rest, p x = true ->
                 In ([], rest) (mre (Cls p) (x :: rest) []))
    by (intros p x rest Hp; apply in_mre_Cls; by exists x).
  assert (Et : v ++ post = y ++ c1 :: m ++ c2 :: d ++ e ++ post).
  { rewrite Hv, <- !app_assoc. simpl. rewrite <- !app_assoc. simpl.
    by rewrite <- !app_assoc. }
  destruct Hsep as [(Hc1 & Hc2 & He)|(-> & -> & ->)]; [left|right];
    unfold pattern_at, production_date_patterns; cbn [lookup list_lookup p_re];
    apply Hpre, Hgrp; rewrite Et; cbn [cat].
  - apply in_mre_Cat. eexists _, _. split; [apply Hyear|].
    apply in_mre_Cat. eexists _, _. split; [by apply Hcls|].
    apply in_mre_Cat. eexists _, _. split; [by apply in_mre_between|].
    apply in_mre_Cat. eexists _, _. split; [by apply Hcls|].
    apply in_mre_Cat. eexists _, _. split; [by apply in_mre_between|].
    apply in_mre_Cat. eexists _, _. split; [|by apply in_mre_Eps].
    apply (in_mre_between 0 1).
    + destruct He as [->|[-> _]]; simpl; lia.
    + destruct He as [->|[-> _]]; [|done].
      apply (bool_decide_eq_true_1 (Forall _ (u "日"))). vm_compute. reflexivity.
  - apply in_mre_Cat. eexists _, _. split; [apply Hyear|].
    apply in_mre_Cat. eexists _, _. split; [by apply Hcls|].
    apply in_mre_Cat. eexists _, _. split; [by apply in_mre_between|].
    apply in_mre_Cat. eexists _, _. split; [by apply Hcls|].
    apply in_mre_Cat. eexists _, _. split; [|by apply in_mre_Eps].
    simpl. by apply in_mre_between.
Qed.

Lemma extract_production_date_eq text :
  extract_production_date text =
  match search (pattern_at production_date_patterns 0) text with
  | Some m => Some <$> group_strip m 1
  | None =>
      match search (pattern_at production_date_patterns 1) text with
      | Some m => Some <$> group_strip m 1
      | None =>
          match search (pattern_at production_date_patterns 2) text with
          | Some m => Raise IndexError
          | None => Ok None
          end
      end
  end.
Proof.
  unfold extract_production_date, pattern_at, production_date_patterns.
  cbn [first_match lookup list_lookup p_re strip_group1].
  destruct (search _ text) as [m1|]; [done|].
  destruct (search _ text) as [m2|]; [done|].
  destruct (search _ text) as [m3|] eqn:E3; [|done].
  apply search_ngroups in E3. unfold strip_group1, group_strip, group.
  by rewrite E3.
Qed.

Lemma date_text_strip v post : date_text v post -> strip v = v.
Proof.
  intros (y & s1 & m & s2 & d & e & -> & [Hy4 Hy] & _ & _ & Hd & Hdd & _ & Hsep).
  destruct y as [|a y]; [done|]. apply Forall_cons in Hy as [Ha _].
  apply decimal_not_space in Ha.
  assert (He : e = u "日" \/ e = [])
    by (destruct Hsep as [(_ & _ & [->|[-> _]])|(_ & _ & ->)]; auto).
  destruct He as [->| ->].
  - replace ((a :: y) ++ s1 :: m ++ s2 :: d ++ u "日")
      with (a :: (y ++ s1 :: m ++ s2 :: d) ++ [26085%N]).
    + by apply strip_id.
    + simpl. f_equal. rewrite <- !app_assoc. simpl. by rewrite <- !app_assoc.
  - destruct (exists_last (l := d)) as (d' & b & ->);
      [intros ->; simpl in Hd; lia|].
    apply Forall_app in Hdd as [_ [Hb _]%Forall_cons].
    apply decimal_not_space in Hb.
    replace ((a :: y) ++ s1 :: m ++ s2 :: (d' ++ [b]) ++ [])
      with (a :: (y ++ s1 :: m ++ s2 :: d') ++ [b]).
    + by apply strip_id.
    + simpl. f_equal. rewrite app_nil_r, <- !app_assoc. simpl.
      by rewrite <- !app_assoc.
Qed.

(** What a match of a dated pattern gives: the date it found, trimmed
    of nothing. *)
Lemma dated_match i text m :
  i = 0 \/ i = 1 ->
  search (pattern_at production_date_patterns i) text = Some m ->
  exists v, group_strip m 1 = Ok v /\ date_at text v.
Proof.
  intros Hi (pre & rest & g & s' & Ht & Hh & _ & ->)%search_Some_head.
  assert (Hd : exists c ws v,
    rest = u "生产日期" ++ c :: ws ++ v ++ s' /\
    colon c = true /\ Forall (fun c => is_space c = true) ws /\
    date_text v s' /\ g = [(1, v)])
    by (destruct Hi as [-> | ->]; [by apply date_head0|by apply date_head1]).
  destruct Hd as (c & ws & v & Hr & Hc & Hws & Hv & ->).
  exists v. split.
  - unfold group_strip, group, mk_match. cbn [m_ngroups m_caps].
    replace (ngroups (pattern_at production_date_patterns i)) with 1
      by (destruct Hi as [-> | ->]; reflexivity).
    simpl. by rewrite (date_text_strip v s').
  - exists pre, c, ws, s'. by rewrite Ht, Hr.
Qed.

Lemma date_at_search text v :
  date_at text v ->
  is_Some (search (pattern_at production_date_patterns 0) text) \/
  is_Some (search (pattern_at production_date_patterns 1) text).
Proof.
  intros (pre & c & ws & post & -> & Hc & Hws & Hv).
  destruct (date_complete c ws v post Hc Hws Hv) as [H|H]; [left|right];
    apply (search_from_is_Some _ 0 _ (length pre));
    rewrite ?length_app, ?drop_app_length; try lia; exact H.
Qed.

(** X1: when the text holds a date after the label 生产日期, a colon
    and blanks (a year of four digits, a month and a day of one or two
    digits, written with [-/年] and [-/月] and possibly 日, or with
    points), extract_production_date returns such a date of the text,
    whatever else the text holds.  When it holds none, the extractor
    raises IndexError if one of 见封口, 见瓶身, 见包装 occurs in the text,
    and returns None if none does. *)
Theorem production_date_outcome (text : str) :
  ((exists v, date_at text v) ->
   exists v, extract_production_date text = Ok (Some v) /\ date_at text v) /\
  ((forall v, ~ date_at text v) -> (exists w, see_package w /\ occurs w text) ->
   extract_production_date text = Raise IndexError) /\
  ((forall v, ~ date_at text v) -> (forall w, see_package w -> ~ occurs w text) ->
   extract_production_date text = Ok None).
Proof.
  rewrite extract_production_date_eq.
  assert (Hnone : (forall v, ~ date_at text v) ->
    search (pattern_at production_date_patterns 0) text = None /\
    search (pattern_at production_date_patterns 1) text = None).
  { intros Hnd. split.
    - destruct (search _ text) as [m|] eqn:E; [|done].
      destruct (dated_match 0 _ _ (or_introl eq_refl) E) as (v & _ & Hv).
      by destruct (Hnd v).
    - destruct (search _ text) as [m|] eqn:E; [|done].
      destruct (dated_match 1 _ _ (or_intror eq_refl) E) as (v & _ & Hv).
      by destruct (Hnd v). }
  split; [|split].
  - intros (v0 & Hv0).
    destruct (search (pattern_at production_date_patterns 0) text) as [m0|] eqn:E0.
    { destruct (dated_match 0 _ _ (or_introl eq_refl) E0) as (v & -> & Hv).
      by exists v. }
    destruct (date_at_search _ _ Hv0) as [[m Hm]|[m Hm]]; [congruence|].
    rewrite Hm.
    destruct (dated_match 1 _ _ (or_intror eq_refl) Hm) as (v & -> & Hv).
    by exists v.
  - intros [-> ->]%Hnone (w & Hw & Ho).
    destruct (search_is_Some _ _ see_package_complete _ _ Ho Hw) as [m ->]. done.
  - intros [-> ->]%Hnone Hno.
    destruct (search (pattern_at production_date_patterns 2) text) as [m|] eqn:H2;
      [|done].
    apply (search_leftmost _ _ see_package_sound see_package_complete) in H2.
    apply leftmost_occurs in H2 as [Ho Hw]. by destruct (Hno _ Hw).
Qed.

Lemma production_date_outcome_witness :
  (exists v, extract_production_date (u "生产日期：2025-04-20 见封口") = Ok (Some v) /\
             date_at (u "生产日期：2025-04-20 见封口") v) /\
  extract_production_date (u "生产日期见封口") = Raise IndexError.
Proof.
  assert (Hall : forall ds : str,
            bool_decide (Forall (fun c => is_decimal c = true) ds) = true ->
            Forall (fun c => is_decimal c = true) ds)
    by (intros ds; apply bool_decide_eq_true_1).
  split.
  - apply (proj1 (production_date_outcome (u "生产日期：2025-04-20 见封口"))).
    exists (u "2025-04-20"), [], 65306%N, [], (u " 见封口").
    split; [vm_compute; reflexivity|]. split; [vm_compute; reflexivity|].
    split; [constructor|].
    exists (u "2025"), 45%N, (u "04"), 45%N, (u "20"), [].
    split; [vm_compute; reflexivity|].
    split; [split; [vm_compute; reflexivity|apply Hall; vm_compute; reflexivity]|].
    split; [vm_compute; lia|]. split; [apply Hall; vm_compute; reflexivity|].
    split; [vm_compute; lia|]. split; [apply Hall; vm_compute; reflexivity|].
    split; [left; vm_compute; reflexivity|].
    left. split; [vm_compute; reflexivity|]. split; [vm_compute; reflexivity|].
    right. split; [done|]. intros post' H. vm_compute in H. discriminate.
  - apply (proj1 (proj2 (production_date_outcome (u "生产日期见封口")))).
    + intros v (pre & c & ws & post & Ht & _ & _ &
                y & s1 & m & s2 & d & e & -> & [Hy _] & _).
      apply (f_equal length) in Ht. rewrite !length_app in Ht. simpl in Ht.
      rewrite !length_app in Ht. simpl in Ht.
      assert (Hl : length (u "生产日期见封口") = 7) by (vm_compute; reflexivity).
      assert (Hl' : length (u "生产日期") = 4) by (vm_compute; reflexivity).
      lia.
    + exists (u "见封口"). split; [by left|].
      exists (u "生产日期"), []. vm_compute. reflexivity.
Defined.

(** X2: the extractors of the name, the ingredients, the net content,
    the specification, the producer, the address, the contact, the shelf
    life, the storage conditions, the license number, the standard code,
    the quality grade, the allergens, the warning, the irradiation
    notice and the barcode return a result on every input; none of them
    raises. *)
Theorem field_extractors_total (text_lines : list str) (full_text : str) :
  (exists r, extract_food_name text_lines full_text = Ok r) /\
  (exists r, extract_ingredients text_lines full_text = Ok r) /\
  (exists r, extract_net_content full_text = Ok r) /\
  (exists r, extract_specification full_text = Ok r) /\
  (exists r, extract_producer text_lines full_text = Ok r) /\
  (exists r, extract_address text_lines full_text = Ok r) /\
  (exists r, extract_contact_info full_text = Ok r) /\
  (exists r, extract_shelf_life full_text = Ok r) /\
  (exists r, extract_storage_conditions text_lines full_text = Ok r) /\
  (exists r, extract_license_number full_text = Ok r) /\
  (exists r, extract_standard_code full_text = Ok r) /\
  (exists r, extract_quality_grade full_text = Ok r) /\
  (exists r, extract_allergens full_text = Ok r) /\
  (exists r, extract_warning text_lines full_text = Ok r) /\
  (exists r, extract_irradiated full_text = Ok r) /\
  (exists r, extract_barcode full_text = Ok r).
Proof.
  repeat split;
    auto using extract_food_name_total, extract_ingredients_total,
      extract_net_content_total, extract_specification_total,
      extract_producer_total, extract_address_total,
      extract_contact_info_total, extract_shelf_life_total,
      extract_storage_conditions_total, extract_standard_code_total,
      extract_quality_grade_total, extract_allergens_total,
      extract_warning_total, extract_barcode_total.
  - rewrite extract_license_number_eq. eauto.
  - unfold extract_irradiated. destruct (_ || _); eauto.
Qed.

(** ** binary64 values that are not NaN *)

Lemma iter_pos_inv {A} (f : A -> A) (P : A -> Prop) p x :
  (forall y, P y -> P (f y)) -> P x -> P (SpecFloat.iter_pos f p x).
Proof.
  intros Hf. revert x. induction p as [p IH|p IH|]; intros x Hx; simpl; auto.
Qed.

Lemma shr_1_nonneg mrs : (0 <= shr_m mrs)%Z -> (0 <= shr_m (shr_1 mrs))%Z.
Proof. destruct mrs as [[|[p|p|]|p] r s]; simpl; lia. Qed.

Lemma shr_nonneg mrs e n :
  (0 <= shr_m mrs)%Z -> (0 <= shr_m (fst (shr mrs e n)))%Z.
Proof.
  intros H. unfold shr. destruct n; simpl; try done.
  apply iter_pos_inv; [apply shr_1_nonneg|done].
Qed.

Lemma shr_fexp_nonneg m e l :
  (0 <= m)%Z -> (0 <= shr_m (fst (shr_fexp F64.prec F64.emax m e l)))%Z.
Proof.
  intros H. unfold shr_fexp. apply shr_nonneg.
  by destruct l as [|[]].
Qed.

Lemma round_nearest_even_nonneg m l :
  (0 <= m)%Z -> (0 <= round_nearest_even m l)%Z.
Proof.
  intros H. unfold round_nearest_even.
  destruct l as [|[]]; try done; [destruct (Z.even m)|]; lia.
Qed.

Lemma binary_round_aux_nonneg mx ex lx :
  (0 <= mx)%Z ->
  nonneg_float (binary_round_aux F64.prec F64.emax false mx ex lx).
Proof.
  intros H. unfold binary_round_aux.
  pose proof (shr_fexp_nonneg mx ex lx H) as H1.
  destruct (shr_fexp F64.prec F64.emax mx ex lx) as [mrs' e'].
  simpl in H1.
  pose proof (shr_fexp_nonneg _ e' loc_Exact
                (round_nearest_even_nonneg _ (loc_of_shr_record mrs') H1)) as H2.
  destruct (shr_fexp F64.prec F64.emax _ e' loc_Exact) as [mrs'' e''].
  simpl in H2. destruct (shr_m mrs'') as [|m|m]; simpl; [done| |lia].
  by destruct (e'' <=? _)%Z.
Qed.

Lemma div_core_nonneg m1 e1 m2 e2 :
  (0 <= fst (fst (SFdiv_core_binary F64.prec F64.emax (Zpos m1) e1 (Zpos m2) e2)))%Z.
Proof.
  unfold SFdiv_core_binary.
  set (s := (e1 - e2 - _)%Z).
  set (m' := match s with Zpos _ => Z.shiftl (Zpos m1) s | Z0 => Zpos m1 | Zneg _ => 0%Z end).
  assert (Hm' : (0 <= m')%Z).
  { unfold m'. destruct s; try lia. apply Z.shiftl_nonneg. lia. }
  pose proof (Z.div_pos m' (Zpos m2) Hm' ltac:(lia)) as Hq.
  unfold Z.div in Hq. destruct (Z.div_eucl m' (Zpos m2)) as [q r]. done.
Qed.

Lemma of_decimal_nonneg n k : nonneg_float (F64.of_decimal n k).
Proof.
  unfold F64.of_decimal. destruct n as [|p]; [done|].
  unfold F64.of_ratio.
  pose proof (div_core_nonneg p 0 (Z.to_pos (10 ^ Z.of_nat k)) 0) as H.
  destruct (SFdiv_core_binary _ _ _ _ _ _) as [[q e] l]. simpl in H.
  by apply binary_round_aux_nonneg.
Qed.

Lemma fmul_nonneg x y :
  nonneg_float x -> pos_finite y -> nonneg_float (F64.fmul x y).
Proof.
  destruct x as [[]|[]| |[] mx ex], y as [| | |[] my ey]; simpl; try done.
  intros _ _. by apply binary_round_aux_nonneg.
Qed.

Lemma fdiv_nonneg x y :
  nonneg_float x -> pos_finite y -> nonneg_float (F64.fdiv x y).
Proof.
  destruct x as [[]|[]| |[] mx ex], y as [| | |[] my ey]; simpl; try done.
  intros _ _. unfold F64.fdiv, SFdiv.
  pose proof (div_core_nonneg mx ex my ey) as H.
  destruct (SFdiv_core_binary _ _ _ _ _ _) as [[q e] l]. simpl in H.
  by apply binary_round_aux_nonneg.
Qed.

Lemma py_int_nonneg x :
  nonneg_float x -> (exists z, py_int x = Ok z) \/ py_int x = Raise OverflowError.
Proof. destruct x; simpl; eauto. done. Qed.

Lemma py_float_nonneg t v : py_float t = Ok v -> nonneg_float v.
Proof.
  unfold py_float. destruct (take_digits t) as [ip r].
  destruct ip as [|c ip]; [done|]. destruct r as [|d r].
  - intros [= <-]. apply of_decimal_nonneg.
  - destruct (d =? 46)%N; [|done]. destruct (take_digits r) as [fp r''].
    destruct r''; [|done]. intros [= <-]. apply of_decimal_nonneg.
Qed.

(** ** What [calculate_nrv] and [extract_nutrition] can raise *)

Lemma number_sound s g g' s' :
  In (g', s') (mre number s g) -> exists w, s = w ++ s' /\ number_text w.
Proof.
  unfold number; cbn [cat]. unfold plus, opt, star.
  intros (g1 & s1 & (n1 & [= Hg1 Hs1] & Hn1)%in_mre_Rep &
          (g2 & s2 & (n2 & [= Hg2 Hs2] & Hn2)%in_mre_Rep &
           (g3 & s3 & (n3 & [= Hg3 Hs3] & Hn3)%in_mre_Rep &
            [= _ Hs']%in_mre_Eps)%in_mre_Cat)%in_mre_Cat)%in_mre_Cat.
  subst.
  pose proof (span_Forall digit None s n1 (proj2 Hn1)) as Hip.
  pose proof (span_Forall (chr 46%N) (Some 1) _ n2 (proj2 Hn2)) as Hdot.
  pose proof (span_Forall digit None _ n3 (proj2 Hn3)) as Hfp.
  pose proof (span_le_length digit None s).
  pose proof (span_le_hi (chr 46%N) 1 (drop n1 s)).
  pose proof (span_le_length (chr 46%N) (Some 1) (drop n1 s)).
  set (s2 := drop n1 s) in *. set (s3 := drop n2 s2) in *.
  exists (take n1 s ++ take n2 s2 ++ take n3 s3). split.
  - rewrite <- !app_assoc. unfold s3, s2. by rewrite !take_drop.
  - assert (Hne : take n1 s <> []).
    { intros E%(f_equal length). rewrite length_take in E. simpl in E. lia. }
    destruct n2 as [|[|n2]]; [| |lia].
    + rewrite take_0. simpl. exists (take n1 s ++ take n3 s3), [].
      repeat split; [by destruct (take n1 s)|by apply Forall_app|constructor|by left].
    + destruct s2 as [|c s2'] eqn:E2; [simpl in *; lia|].
      simpl take at 2. simpl in Hdot. apply Forall_cons in Hdot as [Hc _].
      unfold chr in Hc. apply N.eqb_eq in Hc. subst c.
      exists (take n1 s), (take n3 s3). repeat split; [done..|by right].
Qed.

Lemma number_captured s m :
  search (p_re nrv_number_re) s = Some m ->
  exists t v, group m 1 = Ok (Some t) /\ py_float t = Ok v /\ nonneg_float v.
Proof.
  intros (pre & post & _ & _ & Hng & Hin & _)%search_Some_text.
  simpl p_re in Hin.
  apply in_mre_Grp in Hin as (g1 & s1 & Hin & [= Hcaps <-]).
  apply number_sound in Hin as (w & Hw%app_inv_tail & Hnum). subst w.
  destruct (py_float_number _ Hnum) as [v Hv].
  exists (m_text m), v. split; [|split; [done|by eapply py_float_nonneg]].
  unfold group. rewrite Hng, Hcaps. simpl.
  rewrite length_app.
  replace (length (m_text m) + length post - length post)
    with (length (m_text m)) by lia.
  by rewrite take_app_length.
Qed.

Lemma nrv_convert_nonneg entry v :
  nonneg_float v -> exists v', nrv_convert entry v = Ok v' /\ nonneg_float v'.
Proof.
  intros Hv. unfold nrv_convert.
  destruct (search _ entry) as [m|] eqn:Hs; [|eauto].
  destruct (search_group _ _ _ 1 Hs eq_refl) as [w ->]. cbn [mbind res_bind].
  destruct (is_kcal _); [|eauto].
  eexists. split; [done|]. apply fmul_nonneg; [done|]. by vm_compute.
Qed.

Lemma nrv_entry_raises e ref x :
  pos_finite (F64.of_Z ref) -> nrv_entry e ref = Raise x -> x = OverflowError.
Proof.
  intros Href. unfold nrv_entry. destruct e as [[entry|]|]; try done.
  destruct (negb _); [|done].
  destruct (search _ entry) as [m|] eqn:Hs; [|done].
  destruct (number_captured _ _ Hs) as (t & v & -> & Hv & Hnn).
  cbn [mbind res_bind]. rewrite Hv. cbn [mbind res_bind].
  destruct (nrv_convert_nonneg entry v Hnn) as (v' & -> & Hnn').
  cbn [mbind res_bind]. unfold nrv_percent.
  assert (Hx : nonneg_float (F64.fmul (F64.fdiv v' (F64.of_Z ref)) (F64.of_Z 100))).
  { apply fmul_nonneg; [by apply fdiv_nonneg|by vm_compute]. }
  destruct (py_int_nonneg _ Hx) as [[z ->]| ->]; [done|].
  by intros [= <-].
Qed.

Lemma nrv_loop_raises krs cur x :
  Forall (fun kr => pos_finite (F64.of_Z kr.2)) krs ->
  nrv_loop krs cur = Raise x -> x = OverflowError.
Proof.
  intros Hk. revert cur. induction Hk as [|[key ref] krs Href _ IH]; intros cur;
    [done|].
  cbn [nrv_loop]. rewrite nrv_step_entry.
  destruct (nrv_entry (cur !! key) ref) as [r|e] eqn:E.
  - cbn [mbind res_bind]. apply IH.
  - cbn [mbind res_bind]. intros [= <-]. by eapply nrv_entry_raises.
Qed.

Lemma nrv_values_finite : Forall (fun kr => pos_finite (F64.of_Z kr.2)) nrv_values.
Proof. unfold nrv_values. repeat constructor. Qed.

(** X3: the only exception calculate_nrv can raise is the OverflowError
    of int() on an infinite value; float() and int() never fail in
    another way on the numbers it finds, and an entry of 401 digits
    does make it raise. *)
Theorem calculate_nrv_raises (n : panel) (e : exn) :
  calculate_nrv n = Raise e -> e = OverflowError.
Proof. apply nrv_loop_raises, nrv_values_finite. Qed.

Lemma calculate_nrv_raises_witness :
  calculate_nrv huge_panel = Raise OverflowError /\ OverflowError = OverflowError.
Proof.
  assert (E : calculate_nrv huge_panel = Raise OverflowError)
    by (vm_compute; reflexivity).
  split; [exact E|]. exact (calculate_nrv_raises _ _ E).
Defined.

Lemma ngroups_lit w : ngroups (lit w) = 0.
Proof. induction w as [|c w IH]; [done|]. simpl. by rewrite IH. Qed.

Lemma inline_entry_total full_text ps :
  forallb (fun p => 1 <=? ngroups (p_re p)) ps = true ->
  exists r, inline_entry full_text ps = Ok r.
Proof.
  intros H. apply first_match_total.
  induction ps as [|p ps IH]; [constructor|].
  simpl in H. apply andb_true_iff in H as [Hp Hps]. constructor; [|by apply IH].
  intros m Hm%search_ngroups. apply value_unit_total. rewrite Hm.
  by apply Nat.leb_le.
Qed.

Lemma inline_loop_total full_text kps n :
  forallb (fun kp => forallb (fun p => 1 <=? ngroups (p_re p)) kp.2) kps = true ->
  exists n', inline_loop full_text kps n = Ok n'.
Proof.
  revert n. induction kps as [|[key ps] kps IH]; intros n H; [by eexists|].
  simpl in H. apply andb_true_iff in H as [Hp Hps]. cbn [inline_loop].
  destruct (inline_entry_total full_text ps Hp) as [r ->]. cbn [mbind res_bind].
  by apply IH.
Qed.

Lemma table_keyword_total line n kw : exists n', table_keyword line n kw = Ok n'.
Proof.
  unfold table_keyword. destruct (contains kw line); [|eauto].
  destruct (search _ line) as [m|] eqn:Hs; [|eauto].
  destruct (key_map_get key_map kw); [|eauto].
  apply search_ngroups in Hs.
  assert (Hn : m_ngroups m = 2).
  { rewrite Hs. unfold table_re. simpl. by rewrite ngroups_lit. }
  destruct (group_fmt_Ok m 1) as [a ->]; [lia|].
  destruct (group_fmt_Ok m 2) as [b ->]; [lia|]. eauto.
Qed.

Lemma table_line_total line kws n : exists n', table_line line kws n = Ok n'.
Proof.
  revert n. induction kws as [|kw kws IH]; intros n; [by eexists|].
  cbn [table_line]. destruct (table_keyword_total line n kw) as [n1 ->].
  cbn [mbind res_bind]. apply IH.
Qed.

Lemma table_lines_total ls n : exists n', table_lines ls n = Ok n'.
Proof.
  revert n. induction ls as [|l ls IH]; intros n; [by eexists|].
  cbn [table_lines]. destruct (table_line_total l nutrition_keywords n) as [n1 ->].
  cbn [mbind res_bind]. apply IH.
Qed.

Lemma extract_nutrition_raises text_lines full_text e :
  extract_nutrition text_lines full_text = Raise e ->
  e = OverflowError /\
  exists n, n <> ∅ /\ calculate_nrv n = Raise OverflowError.
Proof.
  unfold extract_nutrition.
  destruct (inline_loop_total full_text nutrition_patterns ∅ eq_refl) as [n1 ->].
  cbn [mbind res_bind].
  assert (exists n2, (if bool_decide (n1 = ∅)
                      then extract_nutrition_from_table text_lines
                      else Ok n1) = Ok n2) as [n2 ->].
  { destruct (bool_decide (n1 = ∅)); [apply table_lines_total|eauto]. }
  cbn [mbind res_bind].
  destruct (bool_decide (n2 = ∅)) eqn:E; [done|]. apply bool_decide_eq_false in E.
  simpl. intros H.
  pose proof (nrv_loop_raises _ _ _ nrv_values_finite H) as ->. eauto.
Qed.

(** X4: parse_food_label returns a record unless extract_production_date
    raises IndexError or extract_nutrition raises OverflowError, and it
    raises nothing else. *)
Theorem parse_food_label_outcome (text_lines : list str) :
  let full_text := join [LF] text_lines in
  ((exists d, extract_production_date full_text = Ok d) ->
   (exists n, extract_nutrition text_lines full_text = Ok n) ->
   exists r, parse_food_label text_lines = Ok r) /\
  (forall e, parse_food_label text_lines = Raise e ->
     (e = IndexError /\ extract_production_date full_text = Raise IndexError) \/
     (e = OverflowError /\
      extract_nutrition text_lines full_text = Raise OverflowError)).
Proof.
  intros full_text.
  destruct (extract_food_name_total text_lines full_text) as [a Ha].
  destruct (extract_ingredients_total text_lines full_text) as [a0 Ha0].
  destruct (extract_net_content_total full_text) as [a1 Ha1].
  destruct (extract_specification_total full_text) as [a2 Ha2].
  destruct (extract_producer_total text_lines full_text) as [a3 Ha3].
  destruct (extract_address_total text_lines full_text) as [a4 Ha4].
  destruct (extract_contact_info_total full_text) as [a5 Ha5].
  destruct (extract_shelf_life_total full_text) as [a7 Ha7].
  destruct (extract_storage_conditions_total text_lines full_text) as [a8 Ha8].
  assert (exists a9, extract_license_number full_text = Ok a9) as [a9 Ha9]
    by (rewrite extract_license_number_eq; eauto).
  destruct (extract_standard_code_total full_text) as [a10 Ha10].
  destruct (extract_quality_grade_total full_text) as [a11 Ha11].
  destruct (extract_allergens_total full_text) as [a12 Ha12].
  destruct (extract_warning_total text_lines full_text) as [a14 Ha14].
  assert (exists a15, extract_irradiated full_text = Ok a15) as [a15 Ha15]
    by (unfold extract_irradiated; destruct (_ || _); eauto).
  destruct (extract_barcode_total full_text) as [a16 Ha16].
  split.
  - intros [a6 Ha6] [a13 Ha13]. eexists. by apply parse_food_label_Ok.
  - intros e H. unfold parse_food_label in H. fold full_text in H.
    rewrite Ha, Ha0, Ha1, Ha2, Ha3, Ha4, Ha5 in H. cbn [mbind res_bind] in H.
    destruct (extract_production_date full_text) as [a6|e6] eqn:Ha6.
    + cbn [mbind res_bind] in H.
      rewrite Ha7, Ha8, Ha9, Ha10, Ha11, Ha12 in H. cbn [mbind res_bind] in H.
      destruct (extract_nutrition text_lines full_text) as [a13|e13] eqn:Ha13.
      * cbn [mbind res_bind] in H. rewrite Ha14, Ha15, Ha16 in H. done.
      * cbn [mbind res_bind] in H. injection H as <-.
        apply extract_nutrition_raises in Ha13 as H'. destruct H' as [-> _].
        by right.
    + cbn [mbind res_bind] in H. injection H as <-. left.
      rewrite extract_production_date_eq in Ha6.
      destruct (search (pattern_at production_date_patterns 0) full_text) as [m|] eqn:H0.
      { destruct (search_group_strip _ _ _ H0 eq_refl) as (v & _ & Hv).
        by rewrite Hv in Ha6. }
      destruct (search (pattern_at production_date_patterns 1) full_text) as [m|] eqn:H1.
      { destruct (search_group_strip _ _ _ H1 eq_refl) as (v & _ & Hv).
        by rewrite Hv in Ha6. }
      destruct (search (pattern_at production_date_patterns 2) full_text); [|done].
      by injection Ha6 as <-.
Qed.

Lemma parse_food_label_outcome_witness :
  exists r, parse_food_label bread_lines = Ok r.
Proof.
  apply (proj1 (parse_food_label_outcome bread_lines)).
  - eexists. vm_compute. reflexivity.
  - exists ∅. by_eval.
Defined.

(** ** The percentage of an entry *)








